(** * terraform-controller: the sync pipeline and the build-pod lifecycle

    A shallow embedding of [pkg/controller/controller.go] and
    [pkg/container/kaniko.go].  Calls that leave the process (the Kubernetes
    API, the provider plugins, the clock) are functions on an abstract world
    [W]; every such call is recorded in a trace, so that "stage X never
    runs" and "exactly one status write" are statements about that trace and the
    world the calls leave.
    Calls to [log.Printf] are not modelled. *)

From stdpp Require Import gmap strings list pretty sorting.
From Stdlib Require Import ZArith Ascii.

Open Scope string_scope.
Open Scope list_scope.
Open Scope nat_scope.

#[local] Set Warnings "-clear-no-such-hyp".

(** ** Go values shared by both packages *)

(** The status reason carried by an API error ([apierrors.IsNotFound] reads
    it); errors made by [fmt.Errorf] carry none. *)
Inductive StatusReason := ReasonUnknown | ReasonNotFound | ReasonAlreadyExists.

(** A non-nil Go [error]: the text of [err.Error()] and its reason.  The Go
    value [nil] is [None] of [option error]. *)
Record error := mkError { Error : string; Reason : StatusReason }.

Definition Errorf (msg : string) : error := mkError msg ReasonUnknown.

Definition IsNotFound (err : error) : bool :=
  match Reason err with ReasonNotFound => true | _ => false end.

Definition dquote : string := String "034"%char EmptyString.

(** ** State passing with a trace of the outside calls *)

Definition M (W E A : Type) : Type := W * list E → A * (W * list E).

Definition ret {W E A} (a : A) : M W E A := λ s, (a, s).

Definition bind {W E A B} (m : M W E A) (k : A → M W E B) : M W E B :=
  λ s, let '(a, s') := m s in k a s'.

(** One outside call: run it on the world and append its event. *)
Definition call {W E A} (f : W → A * W) (ev : A → E) : M W E A :=
  λ s, let '(a, w') := f s.1 in (a, (w', (s.2 ++ [ev a])%list)).

Notation "x <- c1 ;; c2" := (bind c1 (λ x, c2))
  (at level 100, c1 at next level, right associativity).
Notation "c1 ;;; c2" := (bind c1 (λ _, c2))
  (at level 100, right associativity).

(** ** pkg/container/kaniko.go *)

Module container.

Record VolumeMount := mkVolumeMount {
    MountName : string;
    MountPath : string;
    ReadOnly : bool
  }.

Record KeyToPath := mkKeyToPath { Key : string; Path : string }.

  (** [corev1.VolumeSource] with the one member that is set. *)
Inductive VolumeSource :=
  | ConfigMapVolumeSource (name : string) (items : list KeyToPath)
  | HostPathVolumeSource (path : string)
  | SecretVolumeSource (secretName : string) (items : list KeyToPath)
  | PersistentVolumeClaimVolumeSource (claimName : string).

Record Volume := mkVolume { VolumeName : string; Source : VolumeSource }.

Record EnvVar := mkEnvVar { EnvName : string; EnvValue : string }.

Record Container := mkContainer {
    ContainerName : string;
    Image : string;
    Args : list string;
    Env : list EnvVar;
    VolumeMounts : list VolumeMount
  }.

Inductive RestartPolicy :=
    RestartPolicyAlways | RestartPolicyOnFailure | RestartPolicyNever.

Record PodSpec := mkPodSpec {
    Containers : list Container;
    Restart : RestartPolicy;
    Volumes : list Volume
  }.

Record ObjectMeta := mkObjectMeta {
    Name : string;
    Finalizers : list string
  }.

Record Pod := mkPod { Meta : ObjectMeta; Spec : PodSpec }.

  (** [types.MergePatchType] with the patch bytes. *)
Inductive Patch := MergePatch (body : string).

  (** The part of the clientset (and of this package) that [CreateBuildPod]
      calls, as functions on the world.  [EnsurePVC] is a function of this
      package whose file is not part of the sources at hand. *)
Class Clientset (W : Type) := {
    EnsurePVC : string → string → W → option error * W;
    PodsGet : string → string → W → (Pod + error) * W;
    PodsPatch : string → string → Patch → W → option error * W;
    PodsDelete : string → string → W → option error * W;
    PodsCreate : string → Pod → W → option error * W
  }.

Inductive Event :=
  | EvEnsurePVC (namespace pvcName : string) (r : option error)
  | EvGet (namespace podName : string) (r : Pod + error)
  | EvPatch (namespace podName : string) (p : Patch) (r : option error)
  | EvDelete (namespace podName : string) (r : option error)
  | EvCreate (namespace : string) (pod : Pod) (r : option error).

Definition isPatch (e : Event) : bool :=
    match e with EvPatch _ _ _ _ => true | _ => false end.
Definition isDelete (e : Event) : bool :=
    match e with EvDelete _ _ _ => true | _ => false end.
Definition isCreate (e : Event) : bool :=
    match e with EvCreate _ _ _ => true | _ => false end.

  (** The namespace and pod name an event addresses, for the pod calls. *)
Definition target (e : Event) : option (string * string) :=
    match e with
    | EvEnsurePVC _ _ _ => None
    | EvGet ns n _ | EvPatch ns n _ _ | EvDelete ns n _ => Some (ns, n)
    | EvCreate ns pod _ => Some (ns, Name (Meta pod))
    end.

Section Code.
Context {W : Type} `{!Clientset W}.

Local Abbreviation M := (M W Event).

Definition finalizersPatch : Patch :=
      MergePatch ("{" +:+ dquote +:+ "metadata" +:+ dquote +:+ ":{" +:+
                  dquote +:+ "finalizers" +:+ dquote +:+ ":[]}}").

Definition removeFinalizers (namespace podName : string) : M (option error) :=
      call (PodsPatch namespace podName finalizersPatch)
           (EvPatch namespace podName finalizersPatch).

    (** The pod literal of [CreateBuildPod]; fields the literal leaves out
        have Go's zero value ([ReadOnly] is false, no finalizers). *)
Definition buildPod (name configMapName imageName pvcName
                         dockerSecretName repoDir : string) : Pod :=
      let podName := name +:+ "-docker-build-pod" in
      {| Meta := {| Name := podName; Finalizers := [] |};
         Spec := {|
           Containers := [
             {| ContainerName := "kaniko";
                Image := "gcr.io/kaniko-project/executor:v1.23.1-debug";
                Args := [ "--dockerfile=/config/Dockerfile";
                          "--destination=" +:+ imageName;
                          "--context=/tmp/" +:+ name ];
                Env := [ {| EnvName := "DOCKER_CONFIG"; EnvValue := "/root/.docker" |} ];
                VolumeMounts := [
                  {| MountName := "dockerfile-config"; MountPath := "/config";
                     ReadOnly := false |};
                  {| MountName := "workspace"; MountPath := "/workspace";
                     ReadOnly := false |};
                  {| MountName := "docker-credentials"; MountPath := "/root/.docker";
                     ReadOnly := false |};
                  {| MountName := "kaniko-logs"; MountPath := "/logs";
                     ReadOnly := false |} ] |} ];
           Restart := RestartPolicyNever;
           Volumes := [
             {| VolumeName := "dockerfile-config";
                Source := ConfigMapVolumeSource configMapName
                            [ {| Key := "Dockerfile"; Path := "Dockerfile" |} ] |};
             {| VolumeName := "workspace";
                Source := HostPathVolumeSource repoDir |};
             {| VolumeName := "docker-credentials";
                Source := SecretVolumeSource dockerSecretName
                            [ {| Key := ".dockerconfigjson"; Path := "config.json" |} ] |};
             {| VolumeName := "kaniko-logs";
                Source := PersistentVolumeClaimVolumeSource pvcName |} ] |} |}.

Definition CreateBuildPod (name namespace configMapName imageName pvcName
                               dockerSecretName repoDir : string) : M (option error) :=
      err <- call (EnsurePVC namespace pvcName) (EvEnsurePVC namespace pvcName) ;;
      if err is Some e then ret (Some e) else
      let podName := name +:+ "-docker-build-pod" in
      got <- call (PodsGet namespace podName) (EvGet namespace podName) ;;
      old <- match got with
             | inl pod =>
                 err <- (if bool_decide (0 < length (Finalizers (Meta pod)))
                         then removeFinalizers namespace podName
                         else ret None) ;;
                 if err is Some e then ret (Some e) else
                 call (PodsDelete namespace podName) (EvDelete namespace podName)
             | inr err =>
                 if negb (IsNotFound err) then ret (Some err) else ret None
             end ;;
      if old is Some e then ret (Some e) else
      let pod := buildPod name configMapName imageName pvcName dockerSecretName repoDir in
      call (PodsCreate namespace pod) (EvCreate namespace pod).

End Code.

(** *** An object store to run the package against

    In the manner of client-go's fake clientset: objects are kept by
    namespace and name, and a reactor may make any call fail before it
    reaches the store.  A call that reaches the store takes effect at once,
    with the one exception the API makes for finalizers: a pod that holds
    finalizers stays in the store when its delete is accepted.  A patch is
    applied as the merge patch its bytes spell. *)

Inductive Verb := VerbEnsurePVC | VerbGet | VerbPatch | VerbDelete | VerbCreate.

Record Cluster := mkCluster {
  pods : gmap (string * string) Pod;
  claims : gset (string * string);
  reactor : Verb → string → string → option error
}.

Definition withPods (c : Cluster) (ps : gmap (string * string) Pod) : Cluster :=
  {| pods := ps; claims := claims c; reactor := reactor c |}.

Definition notFound (name : string) : error :=
  mkError ("pods " +:+ dquote +:+ name +:+ dquote +:+ " not found") ReasonNotFound.

Definition alreadyExists (name : string) : error :=
  mkError ("pods " +:+ dquote +:+ name +:+ dquote +:+ " already exists")
          ReasonAlreadyExists.

#[global] Instance Patch_eq_dec : EqDecision Patch.
Proof. solve_decision. Defined.

(** **** JSON merge patches

    The store reads the bytes of a patch as JSON (objects, arrays, strings
    without escapes and null; anything else does not parse) and applies the
    document as a merge patch (RFC 7386) to the fields of a pod the model
    has.  A patch that does not parse, or that names a member the model does
    not have, is refused. *)

#[local] Unset Elimination Schemes.
Inductive json :=
| JNull
| JString (s : string)
| JArray (elements : list json)
| JObject (members : list (string * json)).
#[local] Set Elimination Schemes.

Definition isSpace (c : ascii) : bool :=
  (c =? " ")%char || (c =? "009")%char || (c =? "010")%char || (c =? "013")%char.

Fixpoint skipSpace (s : string) : string :=
  match s with
  | String c rest => if isSpace c then skipSpace rest else s
  | EmptyString => s
  end.

(** The characters of a string literal after its opening quote, and what
    follows the closing quote. *)
Fixpoint scanString (s : string) : option (string * string) :=
  match s with
  | EmptyString => None
  | String c rest =>
      if (c =? "034")%char then Some ("", rest)
      else if (c =? "\")%char then None
      else match scanString rest with
           | Some (str, r) => Some (String c str, r)
           | None => None
           end
  end.

Fixpoint parseValue (fuel : nat) (s : string) : option (json * string) :=
  match fuel with
  | O => None
  | S fuel =>
      match skipSpace s with
      | EmptyString => None
      | String c rest =>
          if (c =? "034")%char then
            match scanString rest with
            | Some (str, r) => Some (JString str, r)
            | None => None
            end
          else if (c =? "[")%char then
            match skipSpace rest with
            | String "]" r => Some (JArray [], r)
            | _ => match parseElements fuel rest with
                   | Some (l, r) => Some (JArray l, r)
                   | None => None
                   end
            end
          else if (c =? "{")%char then
            match skipSpace rest with
            | String "}" r => Some (JObject [], r)
            | _ => match parseMembers fuel rest with
                   | Some (l, r) => Some (JObject l, r)
                   | None => None
                   end
            end
          else
            match String c rest with
            | String "n" (String "u" (String "l" (String "l" r))) => Some (JNull, r)
            | _ => None
            end
      end
  end
with parseElements (fuel : nat) (s : string) : option (list json * string) :=
  match fuel with
  | O => None
  | S fuel =>
      match parseValue fuel s with
      | None => None
      | Some (v, r) =>
          match skipSpace r with
          | String "," r' =>
              match parseElements fuel r' with
              | Some (l, r'') => Some (v :: l, r'')
              | None => None
              end
          | String "]" r' => Some ([v], r')
          | _ => None
          end
      end
  end
with parseMembers (fuel : nat) (s : string)
  : option (list (string * json) * string) :=
  match fuel with
  | O => None
  | S fuel =>
      match skipSpace s with
      | String "034" r =>
          match scanString r with
          | None => None
          | Some (key, r1) =>
              match skipSpace r1 with
              | String ":" r2 =>
                  match parseValue fuel r2 with
                  | None => None
                  | Some (v, r3) =>
                      match skipSpace r3 with
                      | String "," r4 =>
                          match parseMembers fuel r4 with
                          | Some (l, r5) => Some ((key, v) :: l, r5)
                          | None => None
                          end
                      | String "}" r4 => Some ([(key, v)], r4)
                      | _ => None
                      end
                  end
              | _ => None
              end
          end
      | _ => None
      end
  end.

(** A whole document: one value and nothing but space after it.  Every call
    of the parser reads a character, so twice the length is fuel enough. *)
Definition parseJSON (s : string) : option json :=
  match parseValue (2 * String.length s + 2) s with
  | Some (v, rest) =>
      match skipSpace rest with
      | EmptyString => Some v
      | _ => None
      end
  | None => None
  end.

Fixpoint asStrings (l : list json) : option (list string) :=
  match l with
  | [] => Some []
  | JString s :: rest =>
      match asStrings rest with
      | Some ss => Some (s :: ss)
      | None => None
      end
  | _ :: _ => None
  end.

(** The members of [metadata]: [finalizers] is replaced by an array of
    strings and emptied by null. *)
Fixpoint mergeMeta (members : list (string * json)) (meta : ObjectMeta)
  : option ObjectMeta :=
  match members with
  | [] => Some meta
  | (key, v) :: rest =>
      if String.eqb key "finalizers" then
        match v with
        | JNull => mergeMeta rest {| Name := Name meta; Finalizers := [] |}
        | JArray l =>
            match asStrings l with
            | Some fs => mergeMeta rest {| Name := Name meta; Finalizers := fs |}
            | None => None
            end
        | _ => None
        end
      else None
  end.

Fixpoint mergePod (members : list (string * json)) (pod : Pod) : option Pod :=
  match members with
  | [] => Some pod
  | (key, v) :: rest =>
      if String.eqb key "metadata" then
        match v with
        | JObject mm =>
            match mergeMeta mm (Meta pod) with
            | Some meta => mergePod rest {| Meta := meta; Spec := Spec pod |}
            | None => None
            end
        | _ => None
        end
      else None
  end.

(** The pod a patch leaves, or nothing when the store refuses the patch. *)
Definition applyPatch (p : Patch) (pod : Pod) : option Pod :=
  let 'MergePatch body := p in
  match parseJSON body with
  | Some (JObject members) => mergePod members pod
  | _ => None
  end.

Definition badPatch : error :=
  mkError "the patch is not a merge patch the store knows" ReasonUnknown.

(** Modelled from the spec: [EnsurePVC] (this package, file not at hand)
    provisions the claim on demand, create-if-absent, and never re-creates a
    claim that is present. *)
Definition storeEnsurePVC (namespace pvcName : string) (c : Cluster)
  : option error * Cluster :=
  match reactor c VerbEnsurePVC namespace pvcName with
  | Some e => (Some e, c)
  | None => (None, {| pods := pods c;
                      claims := {[ (namespace, pvcName) ]} ∪ claims c;
                      reactor := reactor c |})
  end.

Definition storeGet (namespace podName : string) (c : Cluster)
  : (Pod + error) * Cluster :=
  match reactor c VerbGet namespace podName with
  | Some e => (inr e, c)
  | None => match pods c !! (namespace, podName) with
            | Some pod => (inl pod, c)
            | None => (inr (notFound podName), c)
            end
  end.

Definition storePatch (namespace podName : string) (p : Patch) (c : Cluster)
  : option error * Cluster :=
  match reactor c VerbPatch namespace podName with
  | Some e => (Some e, c)
  | None => match pods c !! (namespace, podName) with
            | Some pod =>
                match applyPatch p pod with
                | Some pod' =>
                    (None, withPods c (<[(namespace, podName) := pod']> (pods c)))
                | None => (Some badPatch, c)
                end
            | None => (Some (notFound podName), c)
            end
  end.

(** An accepted delete removes a pod without finalizers; a pod that holds
    finalizers stays (the API only marks it, and the code never reads the
    mark). *)
Definition storeDelete (namespace podName : string) (c : Cluster)
  : option error * Cluster :=
  match reactor c VerbDelete namespace podName with
  | Some e => (Some e, c)
  | None => match pods c !! (namespace, podName) with
            | Some pod =>
                if bool_decide (Finalizers (Meta pod) = [])
                then (None, withPods c (delete (namespace, podName) (pods c)))
                else (None, c)
            | None => (Some (notFound podName), c)
            end
  end.

Definition storeCreate (namespace : string) (pod : Pod) (c : Cluster)
  : option error * Cluster :=
  let podName := Name (Meta pod) in
  match reactor c VerbCreate namespace podName with
  | Some e => (Some e, c)
  | None => match pods c !! (namespace, podName) with
            | Some _ => (Some (alreadyExists podName), c)
            | None => (None, withPods c (<[(namespace, podName) := pod]> (pods c)))
            end
  end.

#[global] Instance Cluster_Clientset : Clientset Cluster := {|
  EnsurePVC := storeEnsurePVC;
  PodsGet := storeGet;
  PodsPatch := storePatch;
  PodsDelete := storeDelete;
  PodsCreate := storeCreate
|}.

(** The source of the volume a mount name refers to, and the mounts of a
    volume over all containers of the pod. *)
Definition volumeSource (pod : Pod) (volume : string) : option VolumeSource :=
  Source <$> head (filter (λ v, VolumeName v = volume) (Volumes (Spec pod))).

Definition mountsOf (pod : Pod) (volume : string) : list VolumeMount :=
  flat_map (λ c, filter (λ m, MountName m = volume) (VolumeMounts c))
           (Containers (Spec pod)).

(** The pods of one name in one namespace. *)
Definition podsNamed (c : Cluster) (namespace podName : string)
  : gmap (string * string) Pod :=
  filter (λ kv, kv.1 = (namespace, podName)) (pods c).

Definition withReactor (c : Cluster)
    (r : Verb → string → string → option error) : Cluster :=
  {| pods := pods c; claims := claims c; reactor := r |}.

(** A reactor that lets every call through. *)
Definition quiet : Verb → string → string → option error := λ _ _ _, None.

#[global] Instance Verb_eq_dec : EqDecision Verb.
Proof. solve_decision. Defined.

(** A reactor that refuses one verb. *)
Definition refuse (v : Verb) : Verb → string → string → option error :=
  λ v' _ _, if bool_decide (v' = v) then Some (Errorf "forbidden") else None.

(** A store for the examples: the build pod of resource [infra] is there
    and holds a finalizer. *)
Definition stuckPod : Pod :=
  {| Meta := {| Name := "infra-docker-build-pod";
                Finalizers := ["example.com/hold"] |};
     Spec := {| Containers := []; Restart := RestartPolicyNever; Volumes := [] |} |}.

Definition stuckCluster : Cluster :=
  {| pods := {[ ("default", "infra-docker-build-pod") := stuckPod ]};
     claims := ∅;
     reactor := quiet |}.

(** What a call gave back, read as a Go error: nil or the error. *)
Definition resultOf (e : Event) : option error :=
  match e with
  | EvEnsurePVC _ _ r | EvPatch _ _ _ r | EvDelete _ _ r | EvCreate _ _ r => r
  | EvGet _ _ (inl _) => None
  | EvGet _ _ (inr err) => Some err
  end.

Definition isGet (e : Event) : bool :=
  match e with EvGet _ _ _ => true | _ => false end.

(** The mount paths of all containers of a pod. *)
Definition mountPaths (pod : Pod) : list string :=
  flat_map (λ c, MountPath <$> VolumeMounts c) (Containers (Spec pod)).

(** [dir] is [path] or a directory above it. *)
Definition under (dir path : string) : bool :=
  String.eqb dir path || String.prefix (dir +:+ "/") path.

(** [c'] differs from [c] at most in the pod kept under [key] and in holding
    the claim [claim]. *)
Definition touchesOnly (key claim : string * string) (c c' : Cluster) : Prop :=
  reactor c' = reactor c ∧
  (∀ k, k ≠ key → pods c' !! k = pods c !! k) ∧
  claims c ⊆ claims c' ∧
  claims c' ⊆ {[ claim ]} ∪ claims c.

(** *** A store that carries out deletes later

    As [Cluster], but an accepted delete only marks the pod as leaving: the
    pod stays in the store, and keeps its name, until [settle] removes the
    marked pods. *)

Record Lagging := mkLagging {
  store : Cluster;
  leaving : gset (string * string)
}.

Definition onStore {A} (f : Cluster → A * Cluster) (l : Lagging) : A * Lagging :=
  let '(r, c) := f (store l) in (r, {| store := c; leaving := leaving l |}).

Definition lagDelete (namespace podName : string) (l : Lagging)
  : option error * Lagging :=
  match reactor (store l) VerbDelete namespace podName with
  | Some e => (Some e, l)
  | None => match pods (store l) !! (namespace, podName) with
            | Some _ => (None, {| store := store l;
                                  leaving := {[ (namespace, podName) ]} ∪ leaving l |})
            | None => (Some (notFound podName), l)
            end
  end.

#[global] Instance Lagging_Clientset : Clientset Lagging := {|
  EnsurePVC := λ namespace pvcName, onStore (storeEnsurePVC namespace pvcName);
  PodsGet := λ namespace podName, onStore (storeGet namespace podName);
  PodsPatch := λ namespace podName p, onStore (storePatch namespace podName p);
  PodsDelete := lagDelete;
  PodsCreate := λ namespace pod, onStore (storeCreate namespace pod)
|}.

(** The pods of one name that are not leaving. *)
Definition livePodsNamed (l : Lagging) (namespace podName : string)
  : gmap (string * string) Pod :=
  filter (λ kv, kv.1 = (namespace, podName) ∧ kv.1 ∉ leaving l) (pods (store l)).

(** The deletes in flight are carried out. *)
Definition settle (l : Lagging) : Lagging :=
  {| store := withPods (store l) (filter (λ kv, kv.1 ∉ leaving l) (pods (store l)));
     leaving := ∅ |}.

Definition emptyLagging : Lagging :=
  {| store := {| pods := ∅; claims := ∅; reactor := quiet |}; leaving := ∅ |}.

End container.

(** ** pkg/controller/controller.go *)

Module controller.

Definition maxRetries : nat := 10.

(** [time.Minute], in nanoseconds as [time.Duration] counts. *)
Definition Minute : Z := 60000000000.

Record Scripts := mkScripts { Deploy : string; Destroy : string }.

Record GitRepo := mkGitRepo { URL : string; Branch : string }.

Record ContainerRegistry := mkContainerRegistry { ImageName : string }.

(** A Go map may be nil: [None].  The values of a status map are the
    strings [state] and [message]. *)
Record TerraformConfigSpec := mkTerraformConfigSpec {
  Variables : option (gmap string string);
  Backend : option (gmap string string);
  SpecScripts : Scripts;
  SpecGitRepo : GitRepo;
  SpecContainerRegistry : ContainerRegistry
}.

Record ObjectMeta := mkObjectMeta { Name : string; Namespace : string }.

Record ParentResource := mkParentResource {
  ApiVersion : string;
  Kind : string;
  Metadata : ObjectMeta;
  Spec : TerraformConfigSpec;
  Status : option (gmap string string)
}.

Record SyncRequest := mkSyncRequest {
  Parent : ParentResource;
  Finalizing : bool
}.

(** The variables of [handleSyncRequest] that the claims speak of: its
    parameter and the one local it assigns twice. *)
Record Frame := mkFrame {
  observed : SyncRequest;
  scriptContent : string
}.

Definition setScriptContent (fr : Frame) (s : string) : Frame :=
  {| observed := observed fr; scriptContent := s |}.

(** [plugin.Provider]: the two methods of a backend provider. *)
Record Provider (W : Type) := mkProvider {
  SetupBackend : gmap string string → W → option error * W;
  GetDockerfileAdditions : W → string * W
}.
Arguments SetupBackend {W}.
Arguments GetDockerfileAdditions {W}.

(** What the controller calls outside this file, as functions on the world:
    [util.ExtractEnvVars], [os.Getenv], [filepath.Join],
    [plugin.GetProvider], the [container] and [kubernetes] packages and
    [time.Sleep].  The call [container.CreateBuildPod] of this file passes
    ten arguments and takes three results; it is an outside call here. *)
Class Platform (W : Type) := {
  ExtractEnvVars : gmap string string → option (gmap string string);
  Getenv : string → W → string;
  Join : string → string → string;
  GetProvider : string → W → (Provider W + error) * W;
  CreateDockerfileConfigMap :
    string → string → string → bool → W → (string * option error) * W;
  CreateDockerConfigSecret : string → string → string → W → option error * W;
  CreateBuildPod :
    string → string → string → string → string → string → string → string →
    string → W → (string * string * option error) * W;
  CreateRunPod :
    string → string → option (gmap string string) → string → string → string →
    W → option error * W;
  UpdateStatus : string → string → gmap string string → W → option error * W;
  Sleep : Z → W → W
}.

Inductive Event :=
| EvGetProvider (providerType : string) (r : option error)
| EvSetupBackend (providerType : string) (backend : gmap string string)
                 (r : option error)
| EvGetDockerfileAdditions (providerType : string) (r : string)
| EvCreateDockerfileConfigMap (name namespace dockerfileAdditions : string)
                              (providerExists : bool) (r : string * option error)
| EvCreateDockerConfigSecret (secretName namespace encoded : string)
                             (r : option error)
| EvCreateBuildPod (name namespace configMapName imageName secretName repoDir
                    url branch sshKey : string)
                   (r : string * string * option error)
| EvCreateRunPod (name namespace : string) (envVars : option (gmap string string))
                 (script image secretName : string) (r : option error)
| EvUpdateStatus (namespace name : string) (status : gmap string string)
                 (r : option error)
| EvSleep (d : Z).

Definition isUpdateStatus (e : Event) : bool :=
  match e with EvUpdateStatus _ _ _ _ => true | _ => false end.
Definition isBackend (e : Event) : bool :=
  match e with
  | EvGetProvider _ _ | EvSetupBackend _ _ _ | EvGetDockerfileAdditions _ _ => true
  | _ => false
  end.
Definition isBuild (e : Event) : bool :=
  match e with
  | EvCreateDockerfileConfigMap _ _ _ _ _ | EvCreateDockerConfigSecret _ _ _ _
  | EvCreateBuildPod _ _ _ _ _ _ _ _ _ _ => true
  | _ => false
  end.
Definition isRun (e : Event) : bool :=
  match e with EvCreateRunPod _ _ _ _ _ _ _ | EvSleep _ => true | _ => false end.

Definition errOf {A} (r : A + error) : option error :=
  match r with inl _ => None | inr e => Some e end.

Section Code.
Context {W : Type} `{!Platform W}.

Local Abbreviation M := (M W Event).

(** Read the world without an event ([os.Getenv]). *)
Definition gets {A} (f : W → A) : M A := λ s, (f s.1, s).

Definition errorResponse (action : string) (err : error) : gmap string string :=
  {[ "state" := "error";
     "message" := "Error " +:+ action +:+ ": " +:+ Error err ]}.

Definition updateStatus (observed : SyncRequest) (status : gmap string string)
  : M unit :=
  call (UpdateStatus (Namespace (Metadata (Parent observed)))
                     (Name (Metadata (Parent observed))) status)
       (EvUpdateStatus (Namespace (Metadata (Parent observed)))
                       (Name (Metadata (Parent observed))) status) ;;;
  ret tt.

Definition extractEnvVars (variables : option (gmap string string))
  : option (gmap string string) :=
  match variables with
  | None => None
  | Some m => ExtractEnvVars m
  end.

Definition setupBackend (backend : option (gmap string string))
  : M (string * bool * option error) :=
  match backend with
  | None => ret ("", false, None)
  | Some m =>
      if bool_decide (size m = 0) then ret ("", false, None) else
      let providerType := default "" (m !! "provider") in
      let providerExists := bool_decide (is_Some (m !! "provider")) in
      if negb providerExists || bool_decide (providerType = "")
      then ret ("", false, None) else
      got <- call (GetProvider providerType) (λ r, EvGetProvider providerType (errOf r)) ;;
      match got with
      | inr err =>
          ret ("", false, Some (Errorf ("error getting provider: " +:+ Error err)))
      | inl provider =>
          err <- call (SetupBackend provider m) (EvSetupBackend providerType m) ;;
          if err is Some e then
            ret ("", false,
                 Some (Errorf ("error setting up " +:+ providerType +:+
                               " backend: " +:+ Error e)))
          else
            additions <- call (GetDockerfileAdditions provider)
                              (EvGetDockerfileAdditions providerType) ;;
            ret (additions, true, None)
      end
  end.

Definition buildAndTagImage (observed : SyncRequest)
    (configMapName repoDir sshKey secretName : string)
  : M (string * string * option error) :=
  let imageName := ImageName (SpecContainerRegistry (Spec (Parent observed))) in
  let name := Name (Metadata (Parent observed)) in
  let namespace := Namespace (Metadata (Parent observed)) in
  let url := URL (SpecGitRepo (Spec (Parent observed))) in
  let branch := Branch (SpecGitRepo (Spec (Parent observed))) in
  call (CreateBuildPod name namespace configMapName imageName secretName repoDir
                       url branch sshKey)
       (EvCreateBuildPod name namespace configMapName imageName secretName repoDir
                         url branch sshKey).

(** The loop of [runTerraform] with [n] iterations left; [terraformErr] is
    the variable of that name. *)
Fixpoint retry (n : nat) (observed : SyncRequest)
    (scriptContent taggedImageName secretName : string)
    (envVars : option (gmap string string)) (terraformErr : option error)
  : M (option error) :=
  match n with
  | O => ret terraformErr
  | S n' =>
      let name := Name (Metadata (Parent observed)) in
      let namespace := Namespace (Metadata (Parent observed)) in
      err <- call (CreateRunPod name namespace envVars scriptContent
                                taggedImageName secretName)
                  (EvCreateRunPod name namespace envVars scriptContent
                                  taggedImageName secretName) ;;
      match err with
      | None => ret None
      | Some e =>
          call (λ w, (tt, Sleep (1 * Minute) w)) (λ _, EvSleep (1 * Minute)) ;;;
          retry n' observed scriptContent taggedImageName secretName envVars (Some e)
      end
  end.

Definition runTerraform (observed : SyncRequest)
    (scriptContent taggedImageName secretName : string)
    (envVars : option (gmap string string)) : M (gmap string string) :=
  terraformErr <- retry maxRetries observed scriptContent taggedImageName
                        secretName envVars None ;;
  let status : gmap string string :=
    {[ "state" := "Success"; "message" := "Terraform applied successfully" ]} in
  let status :=
    match terraformErr with
    | Some e => <["message" := Error e]> (<["state" := "Failed"]> status)
    | None => status
    end in
  ret status.

(** The shared tail of every path: write the status, return it. *)
Definition finish (fr : Frame) (status : gmap string string)
  : M (Frame * gmap string string) :=
  updateStatus (observed fr) status ;;;
  ret (fr, status).

Definition handleSyncRequest (observed : SyncRequest)
  : M (Frame * gmap string string) :=
  let envVars := extractEnvVars (Variables (Spec (Parent observed))) in
  let fr := {| observed := observed;
               scriptContent := Deploy (SpecScripts (Spec (Parent observed))) |} in
  if bool_decide (scriptContent fr = "") then
    finish fr (errorResponse "executing deploy script"
                             (Errorf "deploy script is missing"))
  else
  let fr := if Finalizing observed
            then setScriptContent fr (Destroy (SpecScripts (Spec (Parent observed))))
            else fr in
  if Finalizing observed && bool_decide (scriptContent fr = "") then
    finish fr (errorResponse "executing destroy script"
                             (Errorf "destroy script is missing"))
  else
  let repoDir := Join "/tmp" (Name (Metadata (Parent observed))) in
  sshKey <- gets (Getenv "GIT_SSH_SECRET") ;;
  backend <- setupBackend (Backend (Spec (Parent observed))) ;;
  let '(dockerfileAdditions, providerExists, err) := backend in
  if err is Some e then finish fr (errorResponse "setting up backend" e) else
  configMap <-
     call (CreateDockerfileConfigMap (Name (Metadata (Parent observed)))
             (Namespace (Metadata (Parent observed)))
             dockerfileAdditions providerExists)
          (EvCreateDockerfileConfigMap (Name (Metadata (Parent observed)))
             (Namespace (Metadata (Parent observed)))
             dockerfileAdditions providerExists) ;;
  let '(configMapName, err) := configMap in
  if err is Some e then finish fr (errorResponse "creating Dockerfile ConfigMap" e) else
  encodedDockerConfigJSON <- gets (Getenv "CONTAINER_REGISTRY_SECRET") ;;
  let secretName := Name (Metadata (Parent observed)) +:+ "-container-secret" in
  err <- call (CreateDockerConfigSecret secretName
                 (Namespace (Metadata (Parent observed))) encodedDockerConfigJSON)
              (EvCreateDockerConfigSecret secretName
                 (Namespace (Metadata (Parent observed))) encodedDockerConfigJSON) ;;
  if err is Some e then finish fr (errorResponse "creating Docker config secret" e) else
  built <- buildAndTagImage observed configMapName repoDir sshKey secretName ;;
  let '(taggedImageName, _, err) := built in
  if err is Some e then finish fr (errorResponse "creating build job" e) else
  status <- runTerraform observed (scriptContent fr) taggedImageName secretName envVars ;;
  finish fr status.

(** The calls of the run stage for a given list of attempt outcomes: each
    attempt, and a one-minute sleep after each one that failed. *)
Definition attemptEvents (observed : SyncRequest)
    (scriptContent taggedImageName secretName : string)
    (envVars : option (gmap string string)) (results : list (option error))
  : list Event :=
  flat_map (λ r, EvCreateRunPod (Name (Metadata (Parent observed)))
                                (Namespace (Metadata (Parent observed)))
                                envVars scriptContent taggedImageName secretName r
                 :: (if r is Some _ then [EvSleep (1 * Minute)] else []))
           results.

End Code.

(** *** A platform to run the controller against

    Providers are known by name, the coming outcomes of [CreateRunPod] are
    scripted, the clock advances on [Sleep], and the last status written for
    each resource is kept. *)

Record Sim := mkSim {
  simEnv : gmap string string;
  simProviders : gset string;
  simRuns : list (option error);
  simClock : Z;
  simStatus : gmap (string * string) (gmap string string)
}.

Definition simProvider : Provider Sim :=
  {| SetupBackend := λ _ w, (None, w);
     GetDockerfileAdditions := λ w, ("RUN terraform init", w) |}.

Definition simGetProvider (providerType : string) (w : Sim)
  : (Provider Sim + error) * Sim :=
  if bool_decide (providerType ∈ simProviders w)
  then (inl simProvider, w)
  else (inr (Errorf ("unknown provider: " +:+ providerType)), w).

Definition simCreateRunPod (w : Sim) : option error * Sim :=
  match simRuns w with
  | [] => (None, w)
  | r :: rest =>
      (r, {| simEnv := simEnv w; simProviders := simProviders w; simRuns := rest;
             simClock := simClock w; simStatus := simStatus w |})
  end.

Definition simUpdateStatus (namespace name : string) (status : gmap string string)
    (w : Sim) : option error * Sim :=
  (None, {| simEnv := simEnv w; simProviders := simProviders w;
            simRuns := simRuns w; simClock := simClock w;
            simStatus := <[(namespace, name) := status]> (simStatus w) |}).

Definition simSleep (d : Z) (w : Sim) : Sim :=
  {| simEnv := simEnv w; simProviders := simProviders w; simRuns := simRuns w;
     simClock := (simClock w + d)%Z; simStatus := simStatus w |}.

#[global] Instance Sim_Platform : Platform Sim := {|
  ExtractEnvVars := λ m, Some m;
  Getenv := λ k w, default "" (simEnv w !! k);
  Join := λ dir name, dir +:+ "/" +:+ name;
  GetProvider := simGetProvider;
  CreateDockerfileConfigMap :=
    λ name _ _ _ w, ((name +:+ "-dockerfile-configmap", None), w);
  CreateDockerConfigSecret := λ _ _ _ w, (None, w);
  CreateBuildPod := λ _ _ _ imageName _ _ _ _ _ w, ((imageName, "", None), w);
  CreateRunPod := λ _ _ _ _ _ _ w, simCreateRunPod w;
  UpdateStatus := simUpdateStatus;
  Sleep := simSleep
|}.

(** A platform that knows the provider [aws] and whose run pod is created at
    the first attempt, and the same with scripted run outcomes. *)
Definition sim0 : Sim :=
  {| simEnv := ∅; simProviders := {[ "aws" ]}; simRuns := [];
     simClock := 0; simStatus := ∅ |}.

Definition simWithRuns (runs : list (option error)) : Sim :=
  {| simEnv := ∅; simProviders := {[ "aws" ]}; simRuns := runs;
     simClock := 0; simStatus := ∅ |}.

(** The request for the resource [infra] of namespace [default]. *)
Definition infra (finalizing : bool) (deploy destroy : string)
    (backend : option (gmap string string)) : SyncRequest :=
  {| Parent := {| ApiVersion := "alustan.io/v1alpha1";
                  Kind := "Terraform";
                  Metadata := {| Name := "infra"; Namespace := "default" |};
                  Spec := {| Variables := None;
                             Backend := backend;
                             SpecScripts := {| Deploy := deploy; Destroy := destroy |};
                             SpecGitRepo := {| URL := "https://example.com/repo";
                                               Branch := "main" |};
                             SpecContainerRegistry := {| ImageName := "registry/img" |} |};
                  Status := None |};
     Finalizing := finalizing |}.

(** The outcomes [n] failed attempts, the [i]-th with its own message. *)
Definition failing (n : nat) : list (option error) :=
  (λ i, Some (Errorf ("attempt " +:+ pretty (S i) +:+ " failed"))) <$> seq 0 n.

Definition deployInfra : SyncRequest := infra false "deploy.sh" "destroy.sh" None.

(** The run stage as [handleSyncRequest] starts it for [deployInfra]. *)
Definition runInfra (runs : list (option error))
  : gmap string string * (Sim * list Event) :=
  runTerraform deployInfra "deploy.sh" "registry/img" "infra-container-secret"
               None (simWithRuns runs, []).

(** A backend that names a provider the platform does not know. *)
Definition unknownBackend : gmap string string :=
  {[ "provider" := "doesnotexist"; "region" := "us-east-1" ]}.

(** The stage of the pipeline a call belongs to, in the order of
    [handleSyncRequest]. *)
Definition stage (e : Event) : nat :=
  match e with
  | EvGetProvider _ _ | EvSetupBackend _ _ _ | EvGetDockerfileAdditions _ _ => 1
  | EvCreateDockerfileConfigMap _ _ _ _ _ => 2
  | EvCreateDockerConfigSecret _ _ _ _ => 3
  | EvCreateBuildPod _ _ _ _ _ _ _ _ _ _ => 4
  | EvCreateRunPod _ _ _ _ _ _ _ | EvSleep _ => 5
  | EvUpdateStatus _ _ _ _ => 6
  end.

Definition isConfigMap (e : Event) : bool :=
  match e with EvCreateDockerfileConfigMap _ _ _ _ _ => true | _ => false end.
Definition isSecret (e : Event) : bool :=
  match e with EvCreateDockerConfigSecret _ _ _ _ => true | _ => false end.
Definition isBuildPod (e : Event) : bool :=
  match e with EvCreateBuildPod _ _ _ _ _ _ _ _ _ _ => true | _ => false end.
Definition isRunPod (e : Event) : bool :=
  match e with EvCreateRunPod _ _ _ _ _ _ _ => true | _ => false end.
Definition isGetProvider (e : Event) : bool :=
  match e with EvGetProvider _ _ => true | _ => false end.

(** The script [handleSyncRequest] selects once both checks have passed. *)
Definition selectedScript (observed : SyncRequest) : string :=
  if Finalizing observed
  then Destroy (SpecScripts (Spec (Parent observed)))
  else Deploy (SpecScripts (Spec (Parent observed))).

(** What [ServeHTTP] writes to the gin context: [r.String] or [r.JSON], the
    latter with the Content-Type header set before it. *)
Inductive Reply :=
| ReplyString (code : Z) (text : string)
| ReplyJSON (code : Z) (contentType : string)
            (obj : gmap string (gmap string string)).

Definition StatusOK : Z := 200.
Definition StatusBadRequest : Z := 400.

Section Serve.
Context {W : Type} `{!Platform W}.

(** [json.NewDecoder(body).Decode] into a [SyncRequest]. *)
Variable Decode : string → SyncRequest + error.

(** The deferred close of the request body only logs; it is left out with the
    other log calls. *)
Definition ServeHTTP (body : string) : M W Event Reply :=
  match Decode body with
  | inr err => ret (ReplyString StatusBadRequest (Error err))
  | inl observed =>
      response <- handleSyncRequest observed ;;
      ret (ReplyJSON StatusOK "application/json" {[ "body" := response.2 ]})
  end.

End Serve.

(** *** The maps of a request are shared with the callees

    Go copies the [SyncRequest] struct into [handleSyncRequest], but a map
    field is a reference: [provider.SetupBackend] is handed the very map
    [observed.Parent.Spec.Backend] points to, and what it stores there the
    caller's request holds afterwards.  [handleSyncRequest] reads that map
    before a callee holds it and not after (controller.go:198-214), so its
    own steps read the contents of entry.  A world that keeps the storage of
    the map next to the platform shows what the callee does to it.  Maps are
    values here, so the map a callee is handed is told from any other by its
    contents: a provider handed the contents in storage stores into that
    map, and one handed anything else stores elsewhere.  No other call is
    handed the map, so no other call reaches its storage;
    [util.ExtractEnvVars], the one callee handed [Variables], is the pure
    transform of the [Platform]. *)
Record Shared (W : Type) := mkShared {
  outside : W;
  backendMap : option (gmap string string)
}.
Arguments mkShared {W}.
Arguments outside {W}.
Arguments backendMap {W}.


Section Share.
Context {W : Type} `{!Platform W}.

(** What [SetupBackend] of the provider of each type leaves in the map it is
    handed, from the contents it finds there. *)
Variable writes : string → gmap string string → gmap string string.

(** A call that is not handed the map. *)
Definition onOutside {A} (f : W → A * W) (s : Shared W) : A * Shared W :=
  let '(a, w) := f (outside s) in
  (a, {| outside := w; backendMap := backendMap s |}).

Definition sharedProvider (providerType : string) (p : Provider W)
  : Provider (Shared W) :=
  {| SetupBackend := λ backend s,
       let '(r, w) := SetupBackend p backend (outside s) in
       (r, {| outside := w;
              backendMap := if bool_decide (backendMap s = Some backend)
                            then Some (writes providerType backend)
                            else backendMap s |});
     GetDockerfileAdditions := onOutside (GetDockerfileAdditions p) |}.

Definition sharedGetProvider (providerType : string) (s : Shared W)
  : (Provider (Shared W) + error) * Shared W :=
  let '(got, w) := GetProvider providerType (outside s) in
  (match got with
   | inl p => inl (sharedProvider providerType p)
   | inr err => inr err
   end,
   {| outside := w; backendMap := backendMap s |}).

Definition Shared_Platform : Platform (Shared W) := {|
  ExtractEnvVars := ExtractEnvVars;
  Getenv := λ k s, Getenv k (outside s);
  Join := Join;
  GetProvider := sharedGetProvider;
  CreateDockerfileConfigMap := λ name namespace additions providerExists,
    onOutside (CreateDockerfileConfigMap name namespace additions providerExists);
  CreateDockerConfigSecret := λ secretName namespace encoded,
    onOutside (CreateDockerConfigSecret secretName namespace encoded);
  CreateBuildPod := λ name namespace cm image secret repoDir url branch sshKey,
    onOutside (CreateBuildPod name namespace cm image secret repoDir url branch
                              sshKey);
  CreateRunPod := λ name namespace envVars script image secret,
    onOutside (CreateRunPod name namespace envVars script image secret);
  UpdateStatus := λ namespace name status,
    onOutside (UpdateStatus namespace name status);
  Sleep := λ d s, {| outside := Sleep d (outside s); backendMap := backendMap s |}
|}.

(** [handleSyncRequest] for a request whose [Backend] map the callees share:
    the storage holds the contents of the request at entry. *)
Definition syncShared (observed : SyncRequest) (w : W)
  : (Frame * gmap string string) * (Shared W * list Event) :=
  @handleSyncRequest (Shared W) Shared_Platform observed
    ({| outside := w; backendMap := Backend (Spec (Parent observed)) |}, []).


End Share.

(** A provider that fills in the bucket of the remote state where the
    backend names none, in the map it is handed. *)
Definition fillBucket (providerType : string) (m : gmap string string)
  : gmap string string :=
  if m !! "bucket" is Some _ then m
  else <["bucket" := providerType +:+ "-terraform-state"]> m.

(** A provider that only reads the map. *)
Definition readsOnly (providerType : string) (m : gmap string string)
  : gmap string string := m.

Definition awsBackend : gmap string string :=
  {[ "provider" := "aws"; "region" := "us-east-1" ]}.

(** The request for [infra] with that backend. *)
Definition awsInfra : SyncRequest :=
  infra false "deploy.sh" "destroy.sh" (Some awsBackend).

End controller.

(** ** The paginator of the vendored rds client
    (DescribeOptionGroupOptions) *)

Module rds.

Section Paginator.

(** [types.Filter], [types.OptionGroupOption], [middleware.Metadata] and the
    functional options on the client's Options are declared outside the
    file; the paginator only passes them on. *)
Context {Filter OptionGroupOption Metadata OptFn : Type}.

Record DescribeOptionGroupOptionsInput := mkInput {
  EngineName : option string;
  Filters : list Filter;
  MajorEngineVersion : option string;
  Marker : option string;
  MaxRecords : option Z
}.

Record DescribeOptionGroupOptionsOutput := mkOutput {
  OutMarker : option string;
  OptionGroupOptions : list OptionGroupOption;
  ResultMetadata : Metadata
}.

Record DescribeOptionGroupOptionsPaginatorOptions := mkPaginatorOptions {
  Limit : Z;
  StopOnDuplicateToken : bool
}.

(** The paginator without its client, which is the class below. *)
Record DescribeOptionGroupOptionsPaginator := mkPaginator {
  options : DescribeOptionGroupOptionsPaginatorOptions;
  params : DescribeOptionGroupOptionsInput;
  nextToken : option string;
  firstPage : bool
}.

Class DescribeOptionGroupOptionsAPIClient (W : Type) := {
  DescribeOptionGroupOptions :
    DescribeOptionGroupOptionsInput → list OptFn → W →
    (DescribeOptionGroupOptionsOutput + error) * W
}.

Inductive Event :=
| EvDescribe (input : DescribeOptionGroupOptionsInput) (optFns : list OptFn)
             (r : DescribeOptionGroupOptionsOutput + error).

(** The zero value [&DescribeOptionGroupOptionsInput{}]. *)
Definition emptyInput : DescribeOptionGroupOptionsInput :=
  {| EngineName := None; Filters := []; MajorEngineVersion := None;
     Marker := None; MaxRecords := None |}.

Definition NewDescribeOptionGroupOptionsPaginator
    (params : option DescribeOptionGroupOptionsInput)
    (optFns : list (DescribeOptionGroupOptionsPaginatorOptions →
                    DescribeOptionGroupOptionsPaginatorOptions))
  : DescribeOptionGroupOptionsPaginator :=
  let params := match params with None => emptyInput | Some p => p end in
  let options := {| Limit := 0; StopOnDuplicateToken := false |} in
  let options :=
    match MaxRecords params with
    | Some n => {| Limit := n; StopOnDuplicateToken := StopOnDuplicateToken options |}
    | None => options
    end in
  let options := foldl (λ o fn, fn o) options optFns in
  {| options := options; params := params;
     firstPage := true; nextToken := Marker params |}.

Definition HasMorePages (p : DescribeOptionGroupOptionsPaginator) : bool :=
  firstPage p ||
  match nextToken p with
  | Some t => negb (String.length t =? 0)
  | None => false
  end.

Section Client.
Context {W : Type} `{!DescribeOptionGroupOptionsAPIClient W}.

(** [addIsPaginatorUserAgent], an option of the package. *)
Variable addIsPaginatorUserAgent : OptFn.

(** [NextPage] with the paginator it leaves behind. *)
Definition NextPage (p : DescribeOptionGroupOptionsPaginator) (optFns : list OptFn)
  : M W Event ((DescribeOptionGroupOptionsOutput + error) *
               DescribeOptionGroupOptionsPaginator) :=
  if negb (HasMorePages p) then
    ret (inr (Errorf "no more pages available"), p)
  else
  let limit := if (0 <? Limit (options p))%Z then Some (Limit (options p)) else None in
  let input := {| EngineName := EngineName (params p);
                  Filters := Filters (params p);
                  MajorEngineVersion := MajorEngineVersion (params p);
                  Marker := nextToken p;
                  MaxRecords := limit |} in
  let optFns := addIsPaginatorUserAgent :: optFns in
  got <- call (DescribeOptionGroupOptions input optFns) (EvDescribe input optFns) ;;
  match got with
  | inr err => ret (inr err, p)
  | inl result =>
      let prevToken := nextToken p in
      let next := OutMarker result in
      let next :=
        match prevToken, next with
        | Some a, Some b =>
            if StopOnDuplicateToken (options p) && bool_decide (a = b)
            then None else next
        | _, _ => next
        end in
      ret (inl result,
           {| options := options p; params := params p;
              nextToken := next; firstPage := false |})
  end.

End Client.

End Paginator.

(** A service that answers every request with the same marker and counts
    the requests. *)
#[global] Instance sameMarker (t : string)
  : @DescribeOptionGroupOptionsAPIClient unit unit unit unit nat := {|
  DescribeOptionGroupOptions := λ _ _ n,
    (inl {| OutMarker := Some t; OptionGroupOptions := []; ResultMetadata := tt |},
     S n)
|}.

End rds.

(** * Properties *)

(** Membership in a trace that is written out: case on a hypothesis, search
    for a goal. *)
Ltac pick_event H :=
  repeat (apply elem_of_cons in H as [H | H]; [try discriminate H |]);
  try (apply elem_of_nil in H; destruct H).

Ltac find_event :=
  repeat first [ apply list_elem_of_here | apply list_elem_of_further ].

Section BuildPodFacts.
Import container.
Context {W : Type} `{!Clientset W}.

Ltac run_calls :=
  repeat match goal with
  | |- context [EnsurePVC ?a ?b ?w] => destruct (EnsurePVC a b w) as [[?|] ?] eqn:?
  | |- context [PodsGet ?a ?b ?w] => destruct (PodsGet a b w) as [[?|?] ?] eqn:?
  | |- context [PodsPatch ?a ?b ?p ?w] => destruct (PodsPatch a b p w) as [[?|] ?] eqn:?
  | |- context [PodsDelete ?a ?b ?w] => destruct (PodsDelete a b w) as [[?|] ?] eqn:?
  | |- context [PodsCreate ?a ?b ?w] => destruct (PodsCreate a b w) as [[?|] ?] eqn:?
  | |- context [bool_decide ?P] => destruct (bool_decide P) eqn:?
  | |- context [IsNotFound ?e] => destruct (IsNotFound e) eqn:?
  | _ => progress (unfold bind, call, ret; cbn [fst snd negb app])
  end.

(** C10.  Whatever the API answers: a lookup that fails with anything but
    not-found ends [CreateBuildPod] with that error before any patch, delete
    or create; a failed finalizer patch ends it with that error before any
    delete or create; a failed delete ends it with that error before any
    create; and a create, when there is one, is the last call and follows
    either a not-found lookup or a delete that was accepted. *)
Theorem CreateBuildPod_stops_at_first_failure
    (name namespace cm img pvc sec repo : string) (w : W) :
  let podName := name +:+ "-docker-build-pod" in
  let res := CreateBuildPod name namespace cm img pvc sec repo (w, []) in
  let tr := res.2.2 in
  (∀ ns n e, EvGet ns n (inr e) ∈ tr → IsNotFound e = false →
     res.1 = Some e ∧
     Forall (λ ev, isPatch ev = false ∧ isDelete ev = false ∧ isCreate ev = false) tr) ∧
  (∀ ns n p e, EvPatch ns n p (Some e) ∈ tr →
     res.1 = Some e ∧ Forall (λ ev, isDelete ev = false ∧ isCreate ev = false) tr) ∧
  (∀ ns n e, EvDelete ns n (Some e) ∈ tr →
     res.1 = Some e ∧ Forall (λ ev, isCreate ev = false) tr) ∧
  (∀ ns pod r, EvCreate ns pod r ∈ tr →
     last tr = Some (EvCreate ns pod r) ∧
     ((∃ e, EvGet namespace podName (inr e) ∈ tr ∧ IsNotFound e = true) ∨
      EvDelete namespace podName None ∈ tr)).
Proof.
  intros podName res tr. subst tr res podName.
  unfold CreateBuildPod, removeFinalizers. run_calls.
  all: repeat split; intros.
  all: match goal with H : _ ∈ _ |- _ => pick_event H end.
  all: try match goal with H : _ = _ :> Event |- _ => inversion H; subst; clear H end.
  all: try congruence.
  all: try (repeat constructor; fail).
  all: try (right; solve [find_event]).
  all: left; eexists; split; [solve [find_event] | done].
Qed.

(** Every pod call of [CreateBuildPod] addresses the one derived name. *)
Lemma CreateBuildPod_targets
    (name namespace cm img pvc sec repo : string) (w : W) :
  Forall (λ ev, target ev = None ∨
                target ev = Some (namespace, name +:+ "-docker-build-pod"))
         (CreateBuildPod name namespace cm img pvc sec repo (w, [])).2.2.
Proof.
  unfold CreateBuildPod, removeFinalizers. run_calls.
  all: repeat (apply List.Forall_cons;
               [first [left; reflexivity | right; reflexivity] |]).
  all: apply List.Forall_nil.
Qed.

(** X1.  [CreateBuildPod] hands back what its last call gave, unwrapped; it
    returns nil only when that last call is the create. *)
Theorem CreateBuildPod_returns_last_result
    (name namespace cm img pvc sec repo : string) (w : W) :
  let res := CreateBuildPod name namespace cm img pvc sec repo (w, []) in
  ∃ ev, last res.2.2 = Some ev ∧ res.1 = resultOf ev ∧
        (res.1 = None → isCreate ev = true).
Proof.
  intros res. subst res. unfold CreateBuildPod, removeFinalizers. run_calls.
  all: eexists; split; [reflexivity |]; split; [reflexivity |].
  all: first [reflexivity | discriminate].
Qed.

(** X2.  The claim comes first: the first call of [CreateBuildPod] ensures the
    claim, and when that fails it is the only call and its error the
    result. *)
Theorem CreateBuildPod_ensures_claim_first
    (name namespace cm img pvc sec repo : string) (w : W) :
  let res := CreateBuildPod name namespace cm img pvc sec repo (w, []) in
  ∃ r rest, res.2.2 = EvEnsurePVC namespace pvc r :: rest ∧
            (∀ e, r = Some e → rest = [] ∧ res.1 = Some e).
Proof.
  intros res. subst res. unfold CreateBuildPod, removeFinalizers. run_calls.
  all: eexists _, _; split; [reflexivity |]; intros ? [= <-] || intros ? [=].
  all: split; reflexivity.
Qed.

(** X3.  One run makes each call at most once: nothing is retried. *)
Theorem CreateBuildPod_calls_once
    (name namespace cm img pvc sec repo : string) (w : W) :
  let tr := (CreateBuildPod name namespace cm img pvc sec repo (w, [])).2.2 in
  length (List.filter isGet tr) ≤ 1 ∧
  length (List.filter isPatch tr) ≤ 1 ∧
  length (List.filter isDelete tr) ≤ 1 ∧
  length (List.filter isCreate tr) ≤ 1 ∧
  length tr ≤ 5.
Proof.
  intros tr. subst tr. unfold CreateBuildPod, removeFinalizers. run_calls.
  all: cbn; lia.
Qed.

End BuildPodFacts.

Section BuildPodOnStore.
Import container.

(** The bytes [removeFinalizers] sends are the merge patch that empties the
    finalizers and leaves the rest of the pod. *)
Lemma applyPatch_finalizersPatch (pod : Pod) :
  applyPatch finalizersPatch pod =
    Some {| Meta := {| Name := Name (Meta pod); Finalizers := [] |};
            Spec := Spec pod |}.
Proof. reflexivity. Qed.

Lemma no_finalizers (pod : Pod) :
  bool_decide (0 < length (Finalizers (Meta pod))) = false →
  bool_decide (Finalizers (Meta pod) = []) = true.
Proof.
  intros H. apply bool_decide_eq_false_1 in H. apply bool_decide_eq_true_2.
  destruct (Finalizers (Meta pod)); [reflexivity | cbn in H; lia].
Qed.

(** One run on a store whose reactor lets every call through. *)
Lemma CreateBuildPod_quiet_run (c : Cluster)
    (name namespace cm img pvc sec repo : string) (tr0 : list Event) :
  (∀ v a b, reactor c v a b = None) →
  let podName := name +:+ "-docker-build-pod" in
  let new := buildPod name cm img pvc sec repo in
  CreateBuildPod name namespace cm img pvc sec repo (c, tr0) =
    (None,
     ({| pods := <[(namespace, podName) := new]> (pods c);
         claims := {[ (namespace, pvc) ]} ∪ claims c;
         reactor := reactor c |},
      tr0 ++
      match pods c !! (namespace, podName) with
      | Some old =>
          [EvEnsurePVC namespace pvc None; EvGet namespace podName (inl old)] ++
          (if bool_decide (0 < length (Finalizers (Meta old)))
           then [EvPatch namespace podName finalizersPatch None] else []) ++
          [EvDelete namespace podName None; EvCreate namespace new None]
      | None =>
          [EvEnsurePVC namespace pvc None;
           EvGet namespace podName (inr (notFound podName));
           EvCreate namespace new None]
      end)%list).
Proof.
  intros Hq podName new.
  unfold CreateBuildPod, removeFinalizers, bind, call, ret. cbn [fst snd].
  unfold EnsurePVC, PodsGet, PodsPatch, PodsDelete, PodsCreate, Cluster_Clientset.
  unfold storeEnsurePVC. rewrite Hq. cbn [fst snd].
  unfold storeGet. cbn [reactor pods]. rewrite Hq.
  fold podName.
  destruct (pods c !! (namespace, podName)) as [old|] eqn:Hold; cbn [fst snd].
  - destruct (bool_decide (0 < length (Finalizers (Meta old)))) eqn:Hfin; cbn [fst snd].
    + unfold storePatch. cbn [reactor pods].
      rewrite Hq, Hold, applyPatch_finalizersPatch. cbn [fst snd].
      unfold storeDelete, withPods. cbn [reactor pods]. rewrite Hq, lookup_insert_eq.
      cbn [Finalizers Meta]. rewrite (bool_decide_eq_true_2 ([] = [])) by reflexivity.
      cbn [fst snd]. unfold storeCreate. cbn [reactor pods]. rewrite Hq.
      fold new. replace (Name (Meta new)) with podName by reflexivity.
      rewrite lookup_delete_eq. unfold withPods. cbn [fst snd reactor pods claims].
      rewrite delete_insert_eq, insert_delete_eq, <- !app_assoc. reflexivity.
    + unfold storeDelete, withPods. cbn [reactor pods].
      rewrite Hq, Hold, (no_finalizers old Hfin).
      cbn [fst snd]. unfold storeCreate. cbn [reactor pods]. rewrite Hq.
      fold new. replace (Name (Meta new)) with podName by reflexivity.
      rewrite lookup_delete_eq. unfold withPods. cbn [fst snd reactor pods claims].
      rewrite insert_delete_eq, <- !app_assoc. reflexivity.
  - unfold IsNotFound, notFound. cbn [Reason negb fst snd].
    unfold storeCreate. cbn [reactor pods]. rewrite Hq.
    fold new. replace (Name (Meta new)) with podName by reflexivity.
    rewrite Hold. unfold withPods. cbn [fst snd reactor pods claims].
    rewrite <- !app_assoc. reflexivity.
Qed.

Lemma podsNamed_size_one (c : Cluster) (namespace podName : string) (pod : Pod) :
  pods c !! (namespace, podName) = Some pod →
  size (podsNamed c namespace podName) = 1.
Proof.
  intros Hpod. unfold podsNamed.
  replace (filter (λ kv : string * string * Pod, kv.1 = (namespace, podName)) (pods c))
    with ({[ (namespace, podName) := pod ]} : gmap (string * string) Pod).
  { apply map_size_singleton. }
  apply map_eq. intros k. destruct (decide (k = (namespace, podName))) as [->|Hne].
  - rewrite lookup_singleton_eq. symmetry.
    apply map_lookup_filter_Some. split; [exact Hpod | reflexivity].
  - rewrite lookup_singleton_ne by congruence. symmetry.
    apply map_lookup_filter_None. right. intros x _ Hk. exact (Hne Hk).
Qed.

(** C4, as the code has it.  Every pod call of [CreateBuildPod] addresses
    the name N-docker-build-pod.  On a store that lets every call through
    and carries out a delete when it accepts it, one run returns nil after
    these calls and no others, in this order: the claim, the lookup, then
    for a pod that is there the finalizer patch (only when it holds a
    finalizer) followed by the delete, then the create, with no wait in
    between.  After two runs in sequence that store holds exactly one pod of
    the name, the one the second run created. *)
Theorem CreateBuildPod_replaces_build_pod (c : Cluster)
    (name namespace cm img pvc sec repo : string) :
  let podName := name +:+ "-docker-build-pod" in
  let new := buildPod name cm img pvc sec repo in
  let run1 := CreateBuildPod name namespace cm img pvc sec repo (c, []) in
  let run2 := CreateBuildPod name namespace cm img pvc sec repo (run1.2.1, []) in
  Forall (λ ev, target ev = None ∨ target ev = Some (namespace, podName)) run1.2.2 ∧
  ((∀ v a b, reactor c v a b = None) →
   run1.1 = None ∧
   run1.2.2 =
     match pods c !! (namespace, podName) with
     | Some old =>
         [EvEnsurePVC namespace pvc None; EvGet namespace podName (inl old)] ++
         (if bool_decide (0 < length (Finalizers (Meta old)))
          then [EvPatch namespace podName finalizersPatch None] else []) ++
         [EvDelete namespace podName None; EvCreate namespace new None]
     | None =>
         [EvEnsurePVC namespace pvc None;
          EvGet namespace podName (inr (notFound podName));
          EvCreate namespace new None]
     end%list ∧
   run2.1 = None ∧
   run2.2.2 = [EvEnsurePVC namespace pvc None; EvGet namespace podName (inl new);
               EvDelete namespace podName None; EvCreate namespace new None] ∧
   pods run2.2.1 !! (namespace, podName) = Some new ∧
   size (podsNamed run2.2.1 namespace podName) = 1).
Proof.
  intros podName new run1 run2. split.
  { apply CreateBuildPod_targets. }
  intros Hq. subst run2 run1.
  rewrite (CreateBuildPod_quiet_run c name namespace cm img pvc sec repo [] Hq).
  cbn [fst snd]. rewrite CreateBuildPod_quiet_run by exact Hq.
  cbn [fst snd pods]. fold podName new. rewrite lookup_insert_eq.
  repeat split.
  - apply lookup_insert_eq.
  - apply (podsNamed_size_one _ _ _ new). apply lookup_insert_eq.
Qed.

Lemma CreateBuildPod_replaces_build_pod_witness :
  let run1 := CreateBuildPod "infra" "default" "cm" "img" "pvc" "sec" "/tmp/infra"
                (stuckCluster, []) in
  let run2 := CreateBuildPod "infra" "default" "cm" "img" "pvc" "sec" "/tmp/infra"
                (run1.2.1, []) in
  (∀ v a b, reactor stuckCluster v a b = None) ∧
  run1.1 = None ∧ run2.1 = None ∧
  size (podsNamed run2.2.1 "default" "infra-docker-build-pod") = 1.
Proof.
  intros run1 run2.
  assert (Hq : ∀ v a b, reactor stuckCluster v a b = None) by reflexivity.
  split; [exact Hq |].
  destruct (CreateBuildPod_replaces_build_pod stuckCluster
              "infra" "default" "cm" "img" "pvc" "sec" "/tmp/infra") as [_ H].
  destruct (H Hq) as (H1 & _ & H2 & _ & _ & H3).
  exact (conj H1 (conj H2 H3)).
Defined.

(** C4, as the claim has it, fails.  On a store that carries out deletes
    later, the second of two runs finds the pod of the first, has its delete
    accepted and its create refused, since the name is still taken: it
    returns that error, no pod of the name is live, and none is left once the
    delete is carried out. *)
Lemma CreateBuildPod_twice_while_delete_in_flight :
  let run1 := CreateBuildPod "infra" "default" "cm" "img" "pvc" "sec" "/tmp/infra"
                (emptyLagging, []) in
  let run2 := CreateBuildPod "infra" "default" "cm" "img" "pvc" "sec" "/tmp/infra"
                (run1.2.1, []) in
  run1.1 = None ∧
  run2.1 = Some (alreadyExists "infra-docker-build-pod") ∧
  size (livePodsNamed run2.2.1 "default" "infra-docker-build-pod") ≠ 1 ∧
  podsNamed (store (settle run2.2.1)) "default" "infra-docker-build-pod" = ∅.
Proof. vm_compute. repeat split; discriminate. Qed.

(** The finalizer patch is what lets the delete through.  With the stuck pod,
    a patch that changes nothing is accepted and leaves the finalizer, the
    delete is accepted and leaves the pod, and the create is refused. *)
Example stuck_pod_needs_the_patch :
  let c1 := (storePatch "default" "infra-docker-build-pod" (MergePatch "{}")
               stuckCluster).2 in
  let c2 := (storeDelete "default" "infra-docker-build-pod" c1).2 in
  pods c2 !! ("default", "infra-docker-build-pod") = Some stuckPod ∧
  (storeCreate "default" (buildPod "infra" "cm" "img" "pvc" "sec" "/tmp/infra") c2).1
    = Some (alreadyExists "infra-docker-build-pod").
Proof. vm_compute. split; reflexivity. Qed.

(** Bytes that are no JSON object are refused; space between the tokens is
    not. *)
Example applyPatch_reads_the_bytes :
  applyPatch (MergePatch "[]") stuckPod = None ∧
  applyPatch (MergePatch "finalizers") stuckPod = None ∧
  applyPatch (MergePatch ("{ " +:+ dquote +:+ "metadata" +:+ dquote +:+ " : { " +:+
                          dquote +:+ "finalizers" +:+ dquote +:+ " : null } }"))
             stuckPod
  = applyPatch finalizersPatch stuckPod.
Proof. vm_compute. repeat split. Qed.

(** The stuck pod of [stuckCluster] is patched, deleted and replaced. *)
Example CreateBuildPod_stuck_pod_trace :
  let new := buildPod "infra" "cm" "img" "pvc" "sec" "/tmp/infra" in
  (CreateBuildPod "infra" "default" "cm" "img" "pvc" "sec" "/tmp/infra"
     (stuckCluster, [])).2.2 =
  [ EvEnsurePVC "default" "pvc" None;
    EvGet "default" "infra-docker-build-pod" (inl stuckPod);
    EvPatch "default" "infra-docker-build-pod" finalizersPatch None;
    EvDelete "default" "infra-docker-build-pod" None;
    EvCreate "default" new None ].
Proof. vm_compute. reflexivity. Qed.

Lemma CreateBuildPod_stops_at_first_failure_witness :
  let res := CreateBuildPod "infra" "default" "cm" "img" "pvc" "sec" "/tmp/infra"
               (withReactor stuckCluster (refuse VerbDelete), []) in
  res.1 = Some (Errorf "forbidden") ∧ Forall (λ ev, isCreate ev = false) res.2.2.
Proof.
  intros res.
  destruct (CreateBuildPod_stops_at_first_failure
              "infra" "default" "cm" "img" "pvc" "sec" "/tmp/infra"
              (withReactor stuckCluster (refuse VerbDelete))) as (_ & _ & Hdel & _).
  apply (Hdel "default" "infra-docker-build-pod" (Errorf "forbidden")).
  vm_compute. find_event.
Defined.

(** C8, as the code has it.  The build pod has one container, restart policy
    Never and four volume mounts, none of them marked read-only: the
    Dockerfile from the ConfigMap at /config, the repository directory (a
    host path) at /workspace, the registry secret at /root/.docker and the
    persistent volume claim at /logs. *)
Theorem buildPod_one_container_four_mounts
    (name cm img pvc sec repo : string) :
  let pod := buildPod name cm img pvc sec repo in
  ∃ c, Containers (Spec pod) = [c] ∧
       Restart (Spec pod) = RestartPolicyNever ∧
       VolumeMounts c =
         [ mkVolumeMount "dockerfile-config" "/config" false;
           mkVolumeMount "workspace" "/workspace" false;
           mkVolumeMount "docker-credentials" "/root/.docker" false;
           mkVolumeMount "kaniko-logs" "/logs" false ] ∧
       volumeSource pod "dockerfile-config" =
         Some (ConfigMapVolumeSource cm [mkKeyToPath "Dockerfile" "Dockerfile"]) ∧
       volumeSource pod "workspace" = Some (HostPathVolumeSource repo) ∧
       volumeSource pod "docker-credentials" =
         Some (SecretVolumeSource sec [mkKeyToPath ".dockerconfigjson" "config.json"]) ∧
       volumeSource pod "kaniko-logs" = Some (PersistentVolumeClaimVolumeSource pvc).
Proof.
  intros pod. eexists. repeat split.
Qed.

(** C8, as the claim has it, fails: no mount of the Dockerfile volume is
    read-only. *)
Lemma buildPod_Dockerfile_mount_not_read_only :
  ¬ ∃ m, m ∈ mountsOf (buildPod "infra" "infra-cm" "registry/img" "pvc"
                                "infra-container-secret" "/tmp/infra")
                      "dockerfile-config"
         ∧ ReadOnly m = true.
Proof.
  intros (m & Hin & Hro). vm_compute in Hin.
  pick_event Hin. subst m. discriminate Hro.
Qed.

Lemma touchesOnly_refl (key claim : string * string) (c : Cluster) :
  touchesOnly key claim c c.
Proof. unfold touchesOnly. split; [reflexivity |]. split; [done | set_solver]. Qed.

Lemma touchesOnly_trans (key claim : string * string) (c1 c2 c3 : Cluster) :
  touchesOnly key claim c1 c2 → touchesOnly key claim c2 c3 →
  touchesOnly key claim c1 c3.
Proof.
  intros (Hr1 & Hp1 & Hc1 & Hd1) (Hr2 & Hp2 & Hc2 & Hd2).
  unfold touchesOnly. repeat split.
  - congruence.
  - intros k Hk. rewrite Hp2, Hp1 by exact Hk. reflexivity.
  - set_solver.
  - set_solver.
Qed.

Lemma storeEnsurePVC_touches (key : string * string) (namespace pvc : string)
    (c c' : Cluster) (r : option error) :
  storeEnsurePVC namespace pvc c = (r, c') →
  touchesOnly key (namespace, pvc) c c'.
Proof.
  unfold storeEnsurePVC. destruct (reactor c _ _ _); intros [= <- <-].
  - apply touchesOnly_refl.
  - unfold touchesOnly. cbn. split; [reflexivity |]. split; [done | set_solver].
Qed.

Lemma storeGet_touches (key claim : string * string) (namespace podName : string)
    (c c' : Cluster) (r : Pod + error) :
  storeGet namespace podName c = (r, c') → touchesOnly key claim c c'.
Proof.
  unfold storeGet. destruct (reactor c _ _ _); [| destruct (pods c !! _)];
    intros [= <- <-]; apply touchesOnly_refl.
Qed.

Lemma storePatch_touches (claim : string * string) (namespace podName : string)
    (p : Patch) (c c' : Cluster) (r : option error) :
  storePatch namespace podName p c = (r, c') →
  touchesOnly (namespace, podName) claim c c'.
Proof.
  unfold storePatch.
  destruct (reactor c _ _ _); [| destruct (pods c !! _) as [pod|];
                                 [destruct (applyPatch p pod) |]];
    intros [= <- <-]; try apply touchesOnly_refl.
  unfold touchesOnly, withPods. cbn.
  split; [reflexivity |]. split; [| set_solver].
  intros k Hk. by rewrite lookup_insert_ne.
Qed.

Lemma storeDelete_touches (claim : string * string) (namespace podName : string)
    (c c' : Cluster) (r : option error) :
  storeDelete namespace podName c = (r, c') →
  touchesOnly (namespace, podName) claim c c'.
Proof.
  unfold storeDelete.
  destruct (reactor c _ _ _); [| destruct (pods c !! _) as [pod|];
                                 [destruct (bool_decide _) |]];
    intros [= <- <-]; try apply touchesOnly_refl.
  unfold touchesOnly, withPods. cbn.
  split; [reflexivity |]. split; [| set_solver].
  intros k Hk. by rewrite lookup_delete_ne.
Qed.

Lemma storeCreate_touches (claim : string * string) (namespace : string)
    (pod : Pod) (c c' : Cluster) (r : option error) :
  storeCreate namespace pod c = (r, c') →
  touchesOnly (namespace, Name (Meta pod)) claim c c'.
Proof.
  unfold storeCreate. destruct (reactor c _ _ _); [| destruct (pods c !! _)];
    intros [= <- <-]; try apply touchesOnly_refl.
  unfold touchesOnly, withPods. cbn.
  split; [reflexivity |]. split; [| set_solver].
  intros k Hk. by rewrite lookup_insert_ne.
Qed.

(** X4.  Whatever the store refuses or accepts, a run of [CreateBuildPod] leaves
    every other pod as it was: the store differs at most in the pod named
    N-docker-build-pod of the namespace and in holding the claim. *)
Theorem CreateBuildPod_touches_own_pod_only (c : Cluster)
    (name namespace cm img pvc sec repo : string) :
  touchesOnly (namespace, name +:+ "-docker-build-pod") (namespace, pvc) c
    (CreateBuildPod name namespace cm img pvc sec repo (c, [])).2.1.
Proof.
  set (key := (namespace, name +:+ "-docker-build-pod")).
  set (claim := (namespace, pvc)).
  unfold CreateBuildPod, removeFinalizers, bind, call, ret. cbn [fst snd].
  unfold EnsurePVC, PodsGet, PodsPatch, PodsDelete, PodsCreate, Cluster_Clientset.
  destruct (storeEnsurePVC namespace pvc c) as [r0 c0] eqn:H0.
  apply (storeEnsurePVC_touches key) in H0. fold claim in H0.
  destruct r0; cbn [fst snd]; [exact H0 |].
  destruct (storeGet _ _ c0) as [got c1] eqn:H1.
  apply (storeGet_touches key claim) in H1.
  assert (H01 := touchesOnly_trans _ _ _ _ _ H0 H1). clear H0 H1.
  assert (Hcreate : ∀ c2, touchesOnly key claim c c2 →
            touchesOnly key claim c
              (storeCreate namespace (buildPod name cm img pvc sec repo) c2).2).
  { intros c2 H2.
    destruct (storeCreate _ _ c2) as [r3 c3] eqn:H3.
    apply (storeCreate_touches claim) in H3.
    exact (touchesOnly_trans _ _ _ _ _ H2 H3). }
  assert (Hdelete : ∀ c2, touchesOnly key claim c c2 →
            touchesOnly key claim c (storeDelete namespace key.2 c2).2).
  { intros c2 H2.
    destruct (storeDelete _ _ c2) as [r3 c3] eqn:H3.
    apply (storeDelete_touches claim) in H3.
    exact (touchesOnly_trans _ _ _ _ _ H2 H3). }
  destruct got as [old | err]; cbn [fst snd].
  - destruct (bool_decide _); cbn [fst snd].
    + destruct (storePatch _ _ _ c1) as [r2 c2] eqn:H2.
      apply (storePatch_touches claim) in H2.
      assert (H02 := touchesOnly_trans _ _ _ _ _ H01 H2). cbn [fst snd].
      destruct r2; cbn [fst snd]; [exact H02 |].
      specialize (Hdelete c2 H02). cbn [snd key] in Hdelete.
      destruct (storeDelete _ _ c2) as [[?|] c3]; cbn [fst snd] in *;
        [exact Hdelete |].
      specialize (Hcreate c3 Hdelete).
      destruct (storeCreate _ _ c3) as [? c4]; exact Hcreate.
    + specialize (Hdelete c1 H01). cbn [snd key] in Hdelete.
      destruct (storeDelete _ _ c1) as [[?|] c3]; cbn [fst snd] in *;
        [exact Hdelete |].
      specialize (Hcreate c3 Hdelete).
      destruct (storeCreate _ _ c3) as [? c4]; exact Hcreate.
  - destruct (negb (IsNotFound err)); cbn [fst snd]; [exact H01 |].
    specialize (Hcreate c1 H01).
    destruct (storeCreate _ _ c1) as [? c4]; exact Hcreate.
Qed.



(** X6.  On a store that lets every call through, a second run changes nothing
    that the first run left: same pods, same claims. *)
Theorem CreateBuildPod_second_run_same_store (c : Cluster)
    (name namespace cm img pvc sec repo : string) :
  (∀ v a b, reactor c v a b = None) →
  let run1 := CreateBuildPod name namespace cm img pvc sec repo (c, []) in
  let run2 := CreateBuildPod name namespace cm img pvc sec repo (run1.2.1, []) in
  run2.2.1 = run1.2.1.
Proof.
  intros Hq run1 run2. subst run2 run1.
  rewrite (CreateBuildPod_quiet_run c name namespace cm img pvc sec repo [] Hq).
  cbn [fst snd]. rewrite CreateBuildPod_quiet_run by exact Hq.
  cbn [fst snd pods claims reactor]. f_equal.
  - apply insert_insert_eq.
  - apply leibniz_equiv. set_solver.
Qed.

Lemma CreateBuildPod_second_run_same_store_witness :
  let run1 := CreateBuildPod "infra" "default" "cm" "img" "pvc" "sec" "/tmp/infra"
                (stuckCluster, []) in
  let run2 := CreateBuildPod "infra" "default" "cm" "img" "pvc" "sec" "/tmp/infra"
                (run1.2.1, []) in
  run2.2.1 = run1.2.1.
Proof.
  intros run1 run2.
  apply (CreateBuildPod_second_run_same_store stuckCluster
           "infra" "default" "cm" "img" "pvc" "sec" "/tmp/infra").
  reflexivity.
Defined.

(** X7.  The pod literal is well formed: every volume mount names a volume the
    pod declares, no two volumes share a name and no two mounts a path. *)
Theorem buildPod_mounts_resolve (name cm img pvc sec repo : string) :
  let pod := buildPod name cm img pvc sec repo in
  (∀ c m, c ∈ Containers (Spec pod) → m ∈ VolumeMounts c →
          is_Some (volumeSource pod (MountName m))) ∧
  NoDup (VolumeName <$> Volumes (Spec pod)) ∧
  NoDup (mountPaths pod).
Proof.
  intros pod. split; [| split].
  - intros c m Hc Hm. cbn in Hc. pick_event Hc. subst c.
    cbn in Hm. pick_event Hm; subst m; cbn; eauto.
  - refine (bool_decide_unpack _ _). vm_compute. exact I.
  - refine (bool_decide_unpack _ _). vm_compute. exact I.
Qed.

(** X8.  The build context handed to the build tool, /tmp/N, is not a mount path
    of the pod nor under one; the repository directory is mounted at
    /workspace. *)
Theorem buildPod_context_outside_mounts (name cm img pvc sec repo : string) :
  let pod := buildPod name cm img pvc sec repo in
  Forall (λ c, "--context=/tmp/" +:+ name ∈ Args c) (Containers (Spec pod)) ∧
  Forall (λ dir, under dir ("/tmp/" +:+ name) = false) (mountPaths pod) ∧
  volumeSource pod "workspace" = Some (HostPathVolumeSource repo) ∧
  MountPath <$> mountsOf pod "workspace" = ["/workspace"].
Proof.
  intros pod. split; [| split; [| split]].
  - repeat constructor.
  - cbn. repeat constructor.
  - reflexivity.
  - reflexivity.
Qed.

End BuildPodOnStore.

Section SyncFacts.
Import controller.
Context {W : Type} `{!Platform W}.

(** One iteration of the loop of [runTerraform]. *)
Lemma retry_S (n : nat) (observed : SyncRequest)
    (script image secret : string) (envVars : option (gmap string string))
    (err0 : option error) (w : W) (tr : list Event) :
  let name := Name (Metadata (Parent observed)) in
  let namespace := Namespace (Metadata (Parent observed)) in
  retry (S n) observed script image secret envVars err0 (w, tr) =
    let '(err, w1) := CreateRunPod name namespace envVars script image secret w in
    let attempt := EvCreateRunPod name namespace envVars script image secret err in
    match err with
    | None => (None, (w1, tr ++ [attempt]))
    | Some e =>
        retry n observed script image secret envVars (Some e)
              (Sleep (1 * Minute) w1, (tr ++ [attempt]) ++ [EvSleep (1 * Minute)])
    end.
Proof.
  cbn [retry]. unfold bind, call, ret. cbn [fst snd].
  destruct (CreateRunPod _ _ _ _ _ _ w) as [[e|] w1]; reflexivity.
Qed.

(** The loop with at least one iteration left: some attempts fail, each
    followed by the sleep, then a last attempt either succeeds or is the one
    that uses up the iterations. *)
Lemma retry_run (n : nat) (observed : SyncRequest)
    (script image secret : string) (envVars : option (gmap string string))
    (err0 : option error) (s : W * list Event) :
  let res := retry (S n) observed script image secret envVars err0 s in
  ∃ (errs : list error) (final : option error),
    res.2.2 = s.2 ++ attemptEvents observed script image secret envVars
                       ((Some <$> errs) ++ [final]) ∧
    length errs ≤ n ∧
    res.1 = final ∧
    (is_Some final → length errs = n).
Proof.
  revert err0 s. induction n as [|k IH]; intros err0 [w tr] res; subst res.
  - rewrite retry_S. cbn zeta.
    destruct (CreateRunPod _ _ _ _ _ _ w) as [[e|] w1].
    + exists [], (Some e). cbn. rewrite <- app_assoc. done.
    + exists [], None. cbn. split; [done|]. split; [lia|]. split; [done|].
      intros [? ?]; discriminate.
  - rewrite retry_S. cbn zeta.
    destruct (CreateRunPod _ _ _ _ _ _ w) as [[e|] w1].
    + match goal with |- context [retry (S k) _ _ _ _ _ ?e0 ?s0] =>
        destruct (IH e0 s0) as (errs & final & Htr & Hlen & Hres & Hfull) end.
      exists (e :: errs), final. rewrite Htr. cbn [fst snd].
      split; [| split; [cbn; lia | split; [exact Hres |]]].
      * cbn. rewrite <- !app_assoc. reflexivity.
      * intros Hf. cbn. rewrite (Hfull Hf). reflexivity.
    + exists [], None. cbn. split; [done|]. split; [lia|]. split; [done|].
      intros [? ?]; discriminate.
Qed.

Lemma failed_status (msg : string) :
  <["message" := msg]>
    (<["state" := "Failed"]>
       ({[ "state" := "Success"; "message" := "Terraform applied successfully" ]}
        : gmap string string))
  = {[ "state" := "Failed"; "message" := msg ]}.
Proof.
  apply map_eq. intros k.
  destruct (decide (k = "message")) as [->|Hm]; [by simplify_map_eq |].
  destruct (decide (k = "state")) as [->|Hs]; by simplify_map_eq.
Qed.

(** C2, as the code has it.  [runTerraform] makes at most ten attempts; every
    attempt but the last one failed, every failed attempt (the tenth too) is
    followed by a sleep of one minute, and nothing else is called.  If the
    last attempt succeeds the status is Success with the message "Terraform
    applied successfully"; if it fails it is the tenth, and the status is
    Failed with that attempt's error text. *)
Theorem runTerraform_retries (observed : SyncRequest)
    (script image secret : string) (envVars : option (gmap string string)) (w : W) :
  let res := runTerraform observed script image secret envVars (w, []) in
  ∃ (errs : list error) (final : option error),
    res.2.2 = attemptEvents observed script image secret envVars
                ((Some <$> errs) ++ [final]) ∧
    length errs < maxRetries ∧
    match final with
    | None =>
        res.1 = {[ "state" := "Success";
                   "message" := "Terraform applied successfully" ]}
    | Some e =>
        length errs = 9 ∧
        res.1 = {[ "state" := "Failed"; "message" := Error e ]}
    end.
Proof.
  intros res. subst res. unfold runTerraform, maxRetries, bind, ret.
  destruct (retry_run 9 observed script image secret envVars None (w, []))
    as (errs & final & Htr & Hlen & Hres & Hfull).
  cbn zeta in Htr, Hres.
  destruct (retry 10 observed script image secret envVars None (w, []))
    as [r [w' tr]].
  cbn [fst snd] in *. subst r. exists errs, final.
  split; [exact Htr |]. split; [lia |].
  destruct final as [e|]; [| reflexivity].
  split; [apply Hfull; eauto | apply failed_status].
Qed.

(** [runTerraform] from any state: it appends attempts and sleeps only, and
    its status is Success or Failed. *)
Lemma runTerraform_run (observed : SyncRequest)
    (script image secret : string) (envVars : option (gmap string string))
    (s s' : W * list Event) (st : gmap string string) :
  runTerraform observed script image secret envVars s = (st, s') →
  ∃ results,
    s'.2 = s.2 ++ attemptEvents observed script image secret envVars results ∧
    (st !! "state" = Some "Success" ∨ st !! "state" = Some "Failed").
Proof.
  unfold runTerraform, maxRetries, bind, ret. intros Hrun.
  destruct (retry_run 9 observed script image secret envVars None s)
    as (errs & final & Htr & _ & Hres & _).
  cbn zeta in Htr, Hres.
  destruct (retry 10 observed script image secret envVars None s) as [r s1].
  cbn [fst snd] in *. inversion Hrun; subst. eexists. split; [exact Htr |].
  destruct final; [right | left]; by simplify_map_eq.
Qed.

Lemma attemptEvents_no_status_write (observed : SyncRequest)
    (script image secret : string) (envVars : option (gmap string string))
    (results : list (option error)) :
  List.filter isUpdateStatus
    (attemptEvents observed script image secret envVars results) = [].
Proof.
  induction results as [|[e|] rest IH]; cbn; [done | exact IH | exact IH].
Qed.

Lemma attemptEvents_run_only (observed : SyncRequest)
    (script image secret : string) (envVars : option (gmap string string))
    (results : list (option error)) :
  Forall (λ ev, isRun ev = true)
    (attemptEvents observed script image secret envVars results).
Proof.
  induction results as [|[e|] rest IH]; cbn; repeat constructor; exact IH.
Qed.

(** Run [handleSyncRequest] on an abstract world, one case per answer. *)
Ltac run_sync_with tac :=
  unfold handleSyncRequest, finish, updateStatus, buildAndTagImage, gets;
  repeat first [ progress tac | match goal with
  | |- context [UpdateStatus ?a ?b ?c ?w] =>
      destruct (UpdateStatus a b c w) as [? ?] eqn:?
  | |- context [GetProvider ?a ?w] =>
      destruct (GetProvider a w) as [[?|?] ?] eqn:?
  | |- context [SetupBackend ?p ?m ?w] =>
      destruct (SetupBackend p m w) as [[?|] ?] eqn:?
  | |- context [GetDockerfileAdditions ?p ?w] =>
      destruct (GetDockerfileAdditions p w) as [? ?] eqn:?
  | |- context [CreateDockerfileConfigMap ?a ?b ?c ?d ?w] =>
      destruct (CreateDockerfileConfigMap a b c d w) as [[? [?|]] ?] eqn:?
  | |- context [CreateDockerConfigSecret ?a ?b ?c ?w] =>
      destruct (CreateDockerConfigSecret a b c w) as [[?|] ?] eqn:?
  | |- context [CreateBuildPod ?a ?b ?c ?d ?e ?f ?g ?h ?i ?w] =>
      destruct (CreateBuildPod a b c d e f g h i w) as [[[? ?] [?|]] ?] eqn:?
  | |- context [runTerraform ?o ?a ?b ?c ?d ?s] =>
      let H := fresh "Hrun" in
      destruct (runTerraform o a b c d s) as [? [? ?]] eqn:H;
      apply runTerraform_run in H; destruct H as (? & ? & ?)
  | |- context [setupBackend ?b ?s] =>
      let H := fresh "Hbackend" in
      destruct (setupBackend b s) as [[[? ?] ?] [? ?]] eqn:H
  | |- context [match ?o with Some _ => _ | None => _ end] =>
      is_var o; destruct o
  | |- context [Finalizing ?o] => destruct (Finalizing o) eqn:?
  | |- context [bool_decide ?P] => destruct (bool_decide P) eqn:?
  | _ => progress (unfold bind, call, ret;
                   cbn [fst snd negb andb orb app
                        scriptContent observed setScriptContent])
  end ].

Ltac run_sync := run_sync_with idtac.

(** [setupBackend] from any state: it appends backend calls only. *)
Lemma setupBackend_run (backend : option (gmap string string))
    (s : W * list Event) :
  ∃ evs, (setupBackend backend s).2.2 = s.2 ++ evs ∧
         Forall (λ ev, isBackend ev = true) evs.
Proof.
  destruct s as [w tr]. unfold setupBackend.
  destruct backend as [m|]; [| exists []; by rewrite app_nil_r].
  run_sync.
  all: cbn [fst snd]; rewrite <- ?app_assoc; eexists; split; [try reflexivity |].
  all: try (repeat constructor; fail).
  all: by rewrite app_nil_r.
Qed.


(** A provider named that [GetProvider] does not know. *)
Lemma setupBackend_unknown (m : gmap string string) (p : string) (e : error)
    (w w1 : W) (tr : list Event) :
  m !! "provider" = Some p → p ≠ "" → GetProvider p w = (inr e, w1) →
  setupBackend (Some m) (w, tr) =
    (("", false, Some (Errorf ("error getting provider: " +:+ Error e))),
     (w1, tr ++ [EvGetProvider p (Some e)])).
Proof.
  intros Hp Hne Hget. unfold setupBackend.
  rewrite bool_decide_eq_false_2.
  2:{ intros Hz. apply map_size_empty_iff in Hz. subst m.
      rewrite lookup_empty in Hp. discriminate. }
  rewrite Hp. unfold default. cbn [from_option id].
  rewrite bool_decide_eq_true_2 by eauto.
  rewrite (bool_decide_eq_false_2 (p = "")) by exact Hne.
  cbn [negb orb]. unfold bind, call, ret. cbn [fst snd].
  rewrite Hget. reflexivity.
Qed.

(** C1, at the input where the code leaves the claim.  A finalizing request
    whose destroy script is there and whose deploy script is empty ends with
    the error of the deploy script: the destroy script is never selected, and
    the status write is the only call. *)
Theorem handleSyncRequest_finalizing_without_deploy (w : W) :
  let observed := infra true "" "destroy.sh" None in
  let res := handleSyncRequest observed (w, []) in
  scriptContent res.1.1 = "" ∧
  res.1.2 = {[ "state" := "error";
               "message" := "Error executing deploy script: deploy script is missing" ]} ∧
  ∃ r, res.2.2 = [EvUpdateStatus "default" "infra" res.1.2 r].
Proof.
  intros observed res. subst res observed.
  unfold handleSyncRequest, finish, updateStatus, bind, call, ret.
  cbn [fst snd infra Parent Spec SpecScripts Deploy Metadata Name Namespace
       scriptContent observed bool_decide].
  rewrite (bool_decide_eq_true_2 ("" = "")) by reflexivity. cbn [fst snd].
  destruct (UpdateStatus _ _ _ w) as [r w'] eqn:Hup.
  repeat split. eexists. reflexivity.
Qed.

(** C3.  On every path [handleSyncRequest] calls [UpdateStatus] exactly once,
    for the namespace and name of the request, with the status it returns;
    and the world it ends in is the one that call returned, so the write is
    in it. *)
Theorem handleSyncRequest_writes_status_once (observed : SyncRequest) (w : W) :
  let res := handleSyncRequest observed (w, []) in
  let namespace := Namespace (Metadata (Parent observed)) in
  let name := Name (Metadata (Parent observed)) in
  ∃ r before,
    List.filter isUpdateStatus res.2.2 =
      [EvUpdateStatus namespace name res.1.2 r] ∧
    UpdateStatus namespace name res.1.2 before = (r, res.2.1).
Proof.
  intros res namespace name. subst res namespace name. run_sync.
  all: try congruence.
  all: try match goal with
       | H : setupBackend ?b ?s = (_, (_, ?tr)) |- _ =>
           let Hx := fresh in
           destruct (setupBackend_run b s) as (? & Hx & ?);
           rewrite H in Hx; cbn [fst snd app] in Hx; subst tr
       end.
  all: repeat match goal with H : _.2 = _ |- _ => cbn [fst snd] in H; subst end.
  all: rewrite ?List.filter_app, ?attemptEvents_no_status_write.
  all: try match goal with
       | H : Forall (λ ev, isBackend ev = true) ?evs |- _ =>
           replace (List.filter isUpdateStatus evs) with (@nil Event)
             by (clear -H; induction H as [|[] ? Hb ? IH]; cbn in *;
                 first [done | discriminate Hb | exact IH])
       end.
  all: cbn [fst snd] in *; eexists _, _; split; [cbn; reflexivity | eassumption].
Qed.

(** C5.  When the backend names a provider that [GetProvider] does not
    know, the status has state "error" and no ConfigMap, Secret, build pod
    or run pod call is made; with a script selected, the message is that of
    the backend stage with the lookup error in it. *)
Theorem handleSyncRequest_unknown_provider (req : SyncRequest)
    (m : gmap string string) (p : string) (e : error) (w w1 : W) :
  Backend (Spec (Parent req)) = Some m →
  m !! "provider" = Some p → p ≠ "" →
  GetProvider p w = (inr e, w1) →
  let res := handleSyncRequest req (w, []) in
  res.1.2 !! "state" = Some "error" ∧
  Forall (λ ev, isBuild ev = false ∧ isRun ev = false) res.2.2 ∧
  (Deploy (SpecScripts (Spec (Parent req))) ≠ "" →
   (Finalizing req = true → Destroy (SpecScripts (Spec (Parent req))) ≠ "") →
   res.1.2 = errorResponse "setting up backend"
               (Errorf ("error getting provider: " +:+ Error e))).
Proof.
  intros Hb Hp Hne Hget res. subst res.
  unfold handleSyncRequest. rewrite Hb.
  run_sync_with ltac:(rewrite (setupBackend_unknown m p e w w1 [] Hp Hne Hget)).
  all: repeat split; try (repeat constructor; fail).
  all: intros; repeat match goal with
       | H : bool_decide _ = true |- _ => apply bool_decide_eq_true_1 in H
       end; try congruence; tauto.
Qed.


(** C7, as the code has it.  An error status has state "error" and the
    message "Error <action>: <cause>", the cause being the text of the error
    as it is; and a status of [handleSyncRequest] with state "error" is such
    a status, for one of its six actions. *)
Theorem errorResponse_message :
  (∀ action err,
     errorResponse action err !! "state" = Some "error" ∧
     errorResponse action err !! "message" =
       Some ("Error " +:+ action +:+ ": " +:+ Error err)) ∧
  (∀ (req : SyncRequest) (w : W),
     let st := (handleSyncRequest req (w, [])).1.2 in
     st !! "state" = Some "error" →
     ∃ action cause,
       action ∈ [ "executing deploy script"; "executing destroy script";
                  "setting up backend"; "creating Dockerfile ConfigMap";
                  "creating Docker config secret"; "creating build job" ] ∧
       st = errorResponse action cause).
Proof.
  split.
  { intros action err. unfold errorResponse. split; by simplify_map_eq. }
  intros req w st. subst st. run_sync.
  all: try congruence.
  all: intros Hstate.
  all: try (eexists _, _; split; [| reflexivity]; solve [find_event]).
  all: match goal with H : _ ∨ _ |- _ => destruct H; congruence end.
Qed.




(** *** A part of the world that only [SetupBackend] writes *)

Section Cell.
Context {X : Type} (cell : W → X) (f : string → gmap string string → X → X).
Hypothesis Hget : ∀ pt w, cell (GetProvider pt w).2 = cell w.
Hypothesis Hsetup : ∀ pt w p, (GetProvider pt w).1 = inl p →
  ∀ m w', cell (SetupBackend p m w').2 = f pt m (cell w').
Hypothesis Hadd : ∀ pt w p, (GetProvider pt w).1 = inl p →
  ∀ w', cell (GetDockerfileAdditions p w').2 = cell w'.
Hypothesis Hcm : ∀ a b c d w, cell (CreateDockerfileConfigMap a b c d w).2 = cell w.
Hypothesis Hsec : ∀ a b c w, cell (CreateDockerConfigSecret a b c w).2 = cell w.
Hypothesis Hbuild : ∀ a b c d e g h i j w,
  cell (CreateBuildPod a b c d e g h i j w).2 = cell w.
Hypothesis Hrun : ∀ a b c d e g w, cell (CreateRunPod a b c d e g w).2 = cell w.
Hypothesis Hstatus : ∀ a b c w, cell (UpdateStatus a b c w).2 = cell w.
Hypothesis Hsleep : ∀ d w, cell (Sleep d w) = cell w.





End Cell.

(** ** Further properties of the sync pipeline *)

(** [runTerraform] from any state, with its status. *)
Lemma runTerraform_outcome (observed : SyncRequest)
    (script image secret : string) (envVars : option (gmap string string))
    (s s' : W * list Event) (st : gmap string string) :
  runTerraform observed script image secret envVars s = (st, s') →
  ∃ (errs : list error) (final : option error),
    s'.2 = s.2 ++ attemptEvents observed script image secret envVars
                    ((Some <$> errs) ++ [final]) ∧
    length errs ≤ 9 ∧
    (is_Some final → length errs = 9) ∧
    st = match final with
         | None => {[ "state" := "Success";
                      "message" := "Terraform applied successfully" ]}
         | Some e => {[ "state" := "Failed"; "message" := Error e ]}
         end.
Proof.
  unfold runTerraform, maxRetries, bind, ret. intros Hrun.
  destruct (retry_run 9 observed script image secret envVars None s)
    as (errs & final & Htr & Hlen & Hres & Hfull).
  cbn zeta in Htr, Hres.
  destruct (retry 10 observed script image secret envVars None s) as [r s1].
  cbn [fst snd] in *. inversion Hrun; subst. exists errs, final.
  split; [exact Htr |]. split; [exact Hlen |]. split; [exact Hfull |].
  destruct final; [apply failed_status | reflexivity].
Qed.

Lemma attemptEvents_app (observed : SyncRequest)
    (script image secret : string) (envVars : option (gmap string string))
    (r1 r2 : list (option error)) :
  attemptEvents observed script image secret envVars (r1 ++ r2) =
  attemptEvents observed script image secret envVars r1 ++
  attemptEvents observed script image secret envVars r2.
Proof. unfold attemptEvents. apply flat_map_app. Qed.

Lemma attemptEvents_elem (observed : SyncRequest)
    (script image secret : string) (envVars : option (gmap string string))
    (results : list (option error)) (ev : Event) :
  ev ∈ attemptEvents observed script image secret envVars results →
  ev = EvSleep (1 * Minute) ∨
  ∃ r, ev = EvCreateRunPod (Name (Metadata (Parent observed)))
              (Namespace (Metadata (Parent observed)))
              envVars script image secret r.
Proof.
  induction results as [|[e|] rest IH]; cbn; intros Hin.
  - by apply elem_of_nil in Hin.
  - apply elem_of_cons in Hin as [-> | Hin]; [eauto |].
    apply elem_of_cons in Hin as [-> | Hin]; [eauto | auto].
  - apply elem_of_cons in Hin as [-> | Hin]; [eauto | auto].
Qed.

Lemma attemptEvents_stage (observed : SyncRequest)
    (script image secret : string) (envVars : option (gmap string string))
    (results : list (option error)) :
  Forall (λ ev, stage ev = 5)
    (attemptEvents observed script image secret envVars results).
Proof.
  induction results as [|[e|] rest IH]; cbn; repeat constructor; exact IH.
Qed.

Lemma attemptEvents_run_pods (observed : SyncRequest)
    (script image secret : string) (envVars : option (gmap string string))
    (results : list (option error)) :
  length (List.filter isRunPod
            (attemptEvents observed script image secret envVars results))
  = length results.
Proof.
  unfold attemptEvents.
  induction results as [|[e|] rest IH]; cbn [flat_map app List.filter isRunPod length];
    [done | |]; by rewrite IH.
Qed.

Lemma backend_stage (evs : list Event) :
  Forall (λ ev, isBackend ev = true) evs → Forall (λ ev, stage ev = 1) evs.
Proof.
  intros H. eapply Forall_impl; [exact H |].
  intros [] Hb; cbn in *; first [reflexivity | discriminate].
Qed.

(** A filter finds nothing in a list whose events are all of another stage. *)
Lemma filter_other_stage (P : Event → bool) (k : nat) (evs : list Event) :
  (∀ ev, P ev = true → stage ev ≠ k) →
  Forall (λ ev, stage ev = k) evs →
  List.filter P evs = [].
Proof.
  intros HP Hk. induction Hk as [|ev evs Hev _ IH]; [reflexivity |].
  cbn. destruct (P ev) eqn:HPev; [| exact IH].
  destruct (HP ev HPev Hev).
Qed.

(** After [run_sync]: name the calls of the backend stage. *)
Ltac backend_trace :=
  try match goal with
      | H : setupBackend ?b ?s = (_, (_, ?tr)) |- _ =>
          let Hx := fresh in
          let Hb := fresh "Hbackend_evs" in
          destruct (setupBackend_run b s) as (? & Hx & Hb);
          rewrite H in Hx; cbn [fst snd app] in Hx; subst tr;
          apply backend_stage in Hb
      end;
  repeat match goal with H : _.2 = _ |- _ => cbn [fst snd] in H; subst end.

(** [run_sync] with the status of the run stage spelled out. *)
Ltac run_sync_outcome :=
  run_sync_with ltac:(
    idtac;
    match goal with
    | |- context [runTerraform ?o ?a ?b ?c ?d ?s] =>
        let H := fresh "Hrun" in
        destruct (runTerraform o a b c d s) as [? [? ?]] eqn:H;
        apply runTerraform_outcome in H;
        destruct H as (? & ? & ? & ? & ? & ?)
    end);
  cbn [scriptContent observed setScriptContent] in *;
  try congruence;
  backend_trace.

(** X10.  The status write is the last call of every sync: nothing is called once
    the status is on the resource. *)
Theorem handleSyncRequest_status_write_is_last (req : SyncRequest) (w : W) :
  let res := handleSyncRequest req (w, []) in
  ∃ r, last res.2.2 =
         Some (EvUpdateStatus (Namespace (Metadata (Parent req)))
                              (Name (Metadata (Parent req))) res.1.2 r).
Proof.
  intros res. subst res. run_sync_outcome.
  all: eexists; rewrite ?last_snoc; reflexivity.
Qed.

(** X11.  The status of every sync has the two entries [state] and [message] and
    no other, and its state is "error", "Success" or "Failed". *)
Theorem handleSyncRequest_status_shape (req : SyncRequest) (w : W) :
  let st := (handleSyncRequest req (w, [])).1.2 in
  dom st = {[ "state"; "message" ]} ∧
  (st !! "state" = Some "error" ∨ st !! "state" = Some "Success" ∨
   st !! "state" = Some "Failed").
Proof.
  intros st. subst st. run_sync_outcome.
  all: try match goal with |- context [match ?f with Some _ => _ | None => _ end] =>
         destruct f end.
  all: unfold errorResponse; split;
    [ rewrite ?dom_insert_L, ?dom_singleton_L; set_solver
    | first [ left; by simplify_map_eq
            | right; left; by simplify_map_eq
            | right; right; by simplify_map_eq ] ].
Qed.

Lemma run_pods_other_stage (k : nat) (evs : list Event) :
  k ≠ 5 → Forall (λ ev, stage ev = k) evs → List.filter isRunPod evs = [].
Proof.
  intros Hk. apply filter_other_stage. intros [] Hp; cbn in *; congruence.
Qed.

(** X12.  What the state of the status says about the run stage: "Success" only
    when the last call before the status write is a run-pod creation that was
    accepted, for the selected script; "Failed" only after ten run-pod
    attempts; "error" only when no run pod was asked for. *)
Theorem handleSyncRequest_state_tells_run_stage (req : SyncRequest) (w : W) :
  let res := handleSyncRequest req (w, []) in
  let name := Name (Metadata (Parent req)) in
  let namespace := Namespace (Metadata (Parent req)) in
  (res.1.2 !! "state" = Some "Success" →
   ∃ pre image r,
     res.2.2 = pre ++
       [ EvCreateRunPod name namespace
           (extractEnvVars (Variables (Spec (Parent req))))
           (selectedScript req) image (name +:+ "-container-secret") None;
         EvUpdateStatus namespace name res.1.2 r ]) ∧
  (res.1.2 !! "state" = Some "Failed" →
   length (List.filter isRunPod res.2.2) = 10) ∧
  (res.1.2 !! "state" = Some "error" →
   List.filter isRunPod res.2.2 = []).
Proof.
  intros res name namespace. subst res name namespace.
  unfold selectedScript. run_sync_outcome.
  all: try match goal with
       | Hf : is_Some ?f → _ |- context [match ?f with Some _ => _ | None => _ end] =>
           destruct f; [specialize (Hf ltac:(eauto)) |]
       end.
  all: unfold errorResponse.
  all: split; [| split]; intros Hst; try (by simplify_map_eq).
  all: try (rewrite ?List.filter_app, ?(run_pods_other_stage 1) by (done || lia);
            reflexivity).
  all: first
    [ (* Failed: ten attempts *)
      rewrite !List.filter_app, (run_pods_other_stage 1) by (done || lia);
      rewrite !length_app, attemptEvents_run_pods;
      cbn [List.filter isRunPod app length];
      rewrite length_app, length_fmap; cbn [length]; lia
    | (* Success: the accepted attempt, then the status write *)
      rewrite attemptEvents_app; cbn [attemptEvents flat_map app];
      match goal with
      | |- ∃ _ _ _, (?A ++ ?AE ++ [_]) ++ [_] = _ => exists (A ++ AE)
      end;
      eexists _, _; rewrite <- !app_assoc; reflexivity ].
Qed.

Lemma same_stage_sorted (k : nat) (evs : list Event) :
  Forall (λ ev, stage ev = k) evs → StronglySorted le (stage <$> evs).
Proof.
  induction 1 as [|ev evs Hev Hevs IH]; cbn; constructor; [exact IH |].
  apply Forall_fmap. eapply Forall_impl; [exact Hevs |]. cbn. intros; lia.
Qed.

Lemma sorted_then_stage (k : nat) (l evs : list Event) :
  StronglySorted le (stage <$> l) →
  Forall (λ ev, stage ev ≤ k) l →
  Forall (λ ev, stage ev = k) evs →
  StronglySorted le (stage <$> (l ++ evs)).
Proof.
  intros Hl Hle Hk. rewrite fmap_app. apply StronglySorted_app_2.
  - intros a b (ea & -> & Ha)%list_elem_of_fmap (eb & -> & Hb)%list_elem_of_fmap.
    rewrite Forall_forall in Hle, Hk. rewrite (Hk eb Hb). exact (Hle ea Ha).
  - exact Hl.
  - by apply (same_stage_sorted k).
Qed.

(** X13.  The stages run in order: along the calls of a sync the stage never goes
    back (backend, ConfigMap, Secret, build, run, status). *)
Theorem handleSyncRequest_stages_in_order (req : SyncRequest) (w : W) :
  StronglySorted le (stage <$> (handleSyncRequest req (w, [])).2.2).
Proof.
  run_sync_outcome.
  all: repeat match goal with
       | |- StronglySorted le (stage <$> (_ ++ attemptEvents _ _ _ _ _ _)) =>
           eapply (sorted_then_stage 5); [| | apply attemptEvents_stage]
       | |- StronglySorted le (stage <$> (_ ++ [?e])) =>
           apply (sorted_then_stage (stage e) _ [e]); [| | repeat constructor]
       | |- StronglySorted le (stage <$> [_]) => repeat constructor
       | H : Forall (λ ev, stage ev = 1) ?x |- StronglySorted le (stage <$> ?x) =>
           exact (same_stage_sorted 1 x H)
       end.
  all: cbn [stage]; rewrite ?Forall_app; repeat split.
  all: try (eapply Forall_impl; [eassumption | cbn; intros; lia]).
  all: try (eapply Forall_impl; [apply attemptEvents_stage | cbn; intros; lia]).
  all: repeat constructor; cbn; lia.
Qed.

(** After [run_sync_outcome]: find where in the trace an event lies. *)
Ltac in_trace H :=
  repeat (apply elem_of_app in H as [H | H]);
  first
    [ apply list_elem_of_singleton in H
    | apply attemptEvents_elem in H as [H | [? H]]
    | match goal with
      | Hb : Forall (λ ev, stage ev = 1) ?x |- _ =>
          match type of H with
          | _ ∈ x => rewrite Forall_forall in Hb; apply Hb in H; cbn in H
          end
      end ];
  try discriminate H;
  try (inversion H; subst; clear H).

Ltac stage_bounds :=
  rewrite ?Forall_app; repeat split;
  try (eapply Forall_impl; [eassumption | cbn; intros; lia]);
  try (eapply Forall_impl; [apply attemptEvents_stage | cbn; intros; lia]);
  repeat (apply List.Forall_cons; [cbn; lia |]); try apply List.Forall_nil.

(** X14.  A failed ConfigMap, Secret or build call ends the sync: the status is
    the error status of that stage with the call's error, and no call of a
    later stage is made before the status write. *)
Theorem handleSyncRequest_stage_failure_stops (req : SyncRequest) (w : W) :
  let res := handleSyncRequest req (w, []) in
  (∀ n ns a pe cm e,
     EvCreateDockerfileConfigMap n ns a pe (cm, Some e) ∈ res.2.2 →
     res.1.2 = errorResponse "creating Dockerfile ConfigMap" e ∧
     Forall (λ ev, stage ev ≤ 2 ∨ stage ev = 6) res.2.2) ∧
  (∀ sn ns enc e,
     EvCreateDockerConfigSecret sn ns enc (Some e) ∈ res.2.2 →
     res.1.2 = errorResponse "creating Docker config secret" e ∧
     Forall (λ ev, stage ev ≤ 3 ∨ stage ev = 6) res.2.2) ∧
  (∀ n ns cm img sn dir url br key r1 r2 e,
     EvCreateBuildPod n ns cm img sn dir url br key (r1, r2, Some e) ∈ res.2.2 →
     res.1.2 = errorResponse "creating build job" e ∧
     Forall (λ ev, stage ev ≤ 4 ∨ stage ev = 6) res.2.2).
Proof.
  intros res. subst res. run_sync_outcome.
  all: split; [| split]; intros; match goal with H : _ ∈ _ |- _ => in_trace H end.
  all: split; [reflexivity | stage_bounds].
Qed.

Lemma once_other_stage (P : Event → bool) (k : nat) (evs : list Event) :
  (∀ ev, P ev = true → stage ev ≠ k) →
  Forall (λ ev, stage ev = k) evs →
  length (List.filter P evs) = 0.
Proof. intros HP Hk. by rewrite (filter_other_stage P k evs HP Hk). Qed.

(** X15.  No stage is repeated but the run stage: a sync makes at most one
    ConfigMap call, one Secret call and one build call, and at most ten
    run-pod calls. *)
Theorem handleSyncRequest_calls_bounded (req : SyncRequest) (w : W) :
  let tr := (handleSyncRequest req (w, [])).2.2 in
  length (List.filter isConfigMap tr) ≤ 1 ∧
  length (List.filter isSecret tr) ≤ 1 ∧
  length (List.filter isBuildPod tr) ≤ 1 ∧
  length (List.filter isRunPod tr) ≤ 10.
Proof.
  intros tr. subst tr. run_sync_outcome.
  all: rewrite ?List.filter_app, ?length_app.
  all: rewrite ?attemptEvents_run_pods, ?length_app, ?length_fmap.
  all: repeat match goal with
       | H : Forall (λ ev, stage ev = 1) ?x |- context [List.filter ?P ?x] =>
           rewrite (once_other_stage P 1 x)
             by (first [exact H | intros [] ?; cbn in *; congruence])
       | |- context [List.filter ?P (attemptEvents ?a ?b ?c ?d ?e ?f)] =>
           rewrite (once_other_stage P 5 (attemptEvents a b c d e f))
             by (first [apply attemptEvents_stage
                       | intros [] ?; cbn in *; congruence])
       end.
  all: cbn; lia.
Qed.

Ltac find_in :=
  solve [ repeat first
            [ apply list_elem_of_singleton; reflexivity
            | apply elem_of_app; right; apply list_elem_of_singleton; reflexivity
            | apply elem_of_app; left ] ].

(** X16.  What the stages are handed.  The ConfigMap call gets the additions and
    the flag [setupBackend] returned; the build call gets the name of the
    ConfigMap just created, the image name, repository and branch of the
    request, the directory /tmp joined with the resource name and the git
    key of the environment; every run-pod call gets the selected script, the
    variables of the request as environment, and the image the build call
    returned.  All are addressed by the name and namespace of the request,
    the Secret being named N-container-secret. *)
Theorem handleSyncRequest_call_arguments (req : SyncRequest) (w : W) :
  let tr := (handleSyncRequest req (w, [])).2.2 in
  let name := Name (Metadata (Parent req)) in
  let namespace := Namespace (Metadata (Parent req)) in
  let secret := name +:+ "-container-secret" in
  (∀ n ns a pe r, EvCreateDockerfileConfigMap n ns a pe r ∈ tr →
     n = name ∧ ns = namespace ∧
     (setupBackend (Backend (Spec (Parent req))) (w, [])).1 = (a, pe, None)) ∧
  (∀ sn ns enc r, EvCreateDockerConfigSecret sn ns enc r ∈ tr →
     sn = secret ∧ ns = namespace) ∧
  (∀ n ns cm img sn dir url br key r,
     EvCreateBuildPod n ns cm img sn dir url br key r ∈ tr →
     n = name ∧ ns = namespace ∧
     img = ImageName (SpecContainerRegistry (Spec (Parent req))) ∧
     sn = secret ∧ dir = Join "/tmp" name ∧
     url = URL (SpecGitRepo (Spec (Parent req))) ∧
     br = Branch (SpecGitRepo (Spec (Parent req))) ∧
     key = Getenv "GIT_SSH_SECRET" w ∧
     ∃ a pe, EvCreateDockerfileConfigMap name namespace a pe (cm, None) ∈ tr) ∧
  (∀ n ns env sc img sn r, EvCreateRunPod n ns env sc img sn r ∈ tr →
     n = name ∧ ns = namespace ∧
     env = extractEnvVars (Variables (Spec (Parent req))) ∧
     sc = selectedScript req ∧ sn = secret ∧
     ∃ cm dir url br key x,
       EvCreateBuildPod name namespace cm
         (ImageName (SpecContainerRegistry (Spec (Parent req))))
         secret dir url br key (img, x, None) ∈ tr).
Proof.
  intros tr name namespace secret. subst tr name namespace secret.
  unfold selectedScript. run_sync_outcome.
  all: split; [| split; [| split]]; intros;
       match goal with H : _ ∈ _ |- _ => in_trace H end.
  all: repeat match goal with
       | H : (_, _) = (_, _) |- _ => inversion H; subst; clear H
       end.
  all: repeat match goal with |- _ ∧ _ => split end; try reflexivity.
  all: repeat eexists; find_in.
Qed.

(** X17.  [ServeHTTP] answers a body that does not decode with 400 and the text of
    the decode error, and calls nothing.  A body that decodes is answered
    with 200 and, under the key [body], the status the sync wrote as its last
    call, whatever its state. *)
Theorem ServeHTTP_reply (Decode : string → SyncRequest + error)
    (body : string) (w : W) :
  let res := ServeHTTP Decode body (w, []) in
  match Decode body with
  | inr err => res = (ReplyString 400 (Error err), (w, []))
  | inl req =>
      ∃ st r,
        res.1 = ReplyJSON 200 "application/json" {[ "body" := st ]} ∧
        last res.2.2 =
          Some (EvUpdateStatus (Namespace (Metadata (Parent req)))
                               (Name (Metadata (Parent req))) st r) ∧
        res.2 = (handleSyncRequest req (w, [])).2
  end.
Proof.
  intros res. subst res. unfold ServeHTTP.
  destruct (Decode body) as [req | err]; [| reflexivity].
  unfold bind at 1, ret at 1. run_sync_outcome.
  all: eexists _, _; cbn [fst snd]; split; [reflexivity |]; split; [| reflexivity].
  all: rewrite ?last_snoc; reflexivity.
Qed.

(** X9.  The three outcomes of [setupBackend].  It reports a provider only after
    the lookup, the setup and the additions call, in this order, with the
    whole backend map handed to the setup and the additions returned as they
    came.  It fails only on the lookup or on the setup, with the cause's text
    after "error getting provider: " or "error setting up P backend: ", with
    no additions, and it never asks for the additions then.  Otherwise it
    called nothing. *)
Theorem setupBackend_outcomes (backend : option (gmap string string)) (w : W) :
  let res := setupBackend backend (w, []) in
  let additions := res.1.1.1 in
  let providerExists := res.1.1.2 in
  let err := res.1.2 in
  (providerExists = true →
   err = None ∧
   ∃ m p, backend = Some m ∧ m !! "provider" = Some p ∧ p ≠ "" ∧
          res.2.2 = [ EvGetProvider p None; EvSetupBackend p m None;
                      EvGetDockerfileAdditions p additions ]) ∧
  (∀ e, err = Some e →
   additions = "" ∧ providerExists = false ∧
   ∃ m p cause, backend = Some m ∧ m !! "provider" = Some p ∧
     ((res.2.2 = [EvGetProvider p (Some cause)] ∧
       Error e = "error getting provider: " +:+ Error cause) ∨
      (res.2.2 = [EvGetProvider p None; EvSetupBackend p m (Some cause)] ∧
       Error e = "error setting up " +:+ p +:+ " backend: " +:+ Error cause))) ∧
  (providerExists = false → err = None → additions = "" ∧ res = (("", false, None), (w, []))).
Proof.
  intros res additions providerExists err. subst additions providerExists err res.
  unfold setupBackend. destruct backend as [m|]; [| by repeat split].
  destruct (bool_decide (size m = 0)); [by repeat split |].
  destruct (m !! "provider") as [p|] eqn:Hp; cbn [default from_option id];
    [| by repeat split].
  rewrite (bool_decide_eq_true_2 (is_Some (Some p))) by eauto. cbn [negb orb].
  destruct (bool_decide (p = "")) eqn:Hne; [by repeat split |].
  apply bool_decide_eq_false_1 in Hne.
  run_sync.
  all: cbn [fst snd app]; split; [| split]; try done.
  - intros e' [= <-]. repeat split. exists m, p, e. split; [done |]. split; [done |].
    right. done.
  - intros _. split; [done |]. exists m, p. done.
  - intros e' [= <-]. repeat split. exists m, p, e. split; [done |]. split; [done |].
    left. done.
Qed.

End SyncFacts.

(** ** The request's maps and the callees *)

Section SyncOnShared.
Import controller.
Context {W : Type} {P : Platform W}.
Variable writes : string → gmap string string → gmap string string.

Local Abbreviation shared := (Shared_Platform writes).












End SyncOnShared.

Section SyncOnSim.
Import controller.

(** Nine failed attempts and a tenth that succeeds: Success, after ten
    attempts and nine minutes of sleep. *)
Example runTerraform_tenth_attempt_succeeds :
  (runInfra (failing 9)).1 =
    {[ "state" := "Success"; "message" := "Terraform applied successfully" ]} ∧
  length (List.filter isRun (runInfra (failing 9)).2.2) = 19 ∧
  simClock (runInfra (failing 9)).2.1 = (9 * Minute)%Z.
Proof. vm_compute. done. Qed.

(** Attempts that all fail: Failed with the text of the tenth, and the
    eleventh outcome is never asked for. *)
Example runTerraform_ten_attempts_fail :
  (runInfra (failing 12)).1 =
    {[ "state" := "Failed"; "message" := "attempt 10 failed" ]} ∧
  length (simRuns (runInfra (failing 12)).2.1) = 2 ∧
  simClock (runInfra (failing 12)).2.1 = (10 * Minute)%Z.
Proof. vm_compute. done. Qed.

(** A whole sync on the platform: a deploy with the backend of a known
    provider makes every call once, in the order of the stages, and a
    finalizing request with both scripts hands the destroy script to the run
    pod. *)
Example handleSyncRequest_deploy_trace :
  (handleSyncRequest
     (infra false "deploy.sh" "destroy.sh" (Some {[ "provider" := "aws" ]}))
     (sim0, [])).2.2 =
  [ EvGetProvider "aws" None;
    EvSetupBackend "aws" {[ "provider" := "aws" ]} None;
    EvGetDockerfileAdditions "aws" "RUN terraform init";
    EvCreateDockerfileConfigMap "infra" "default" "RUN terraform init" true
      ("infra-dockerfile-configmap", None);
    EvCreateDockerConfigSecret "infra-container-secret" "default" "" None;
    EvCreateBuildPod "infra" "default" "infra-dockerfile-configmap" "registry/img"
      "infra-container-secret" "/tmp/infra" "https://example.com/repo" "main" ""
      ("registry/img", "", None);
    EvCreateRunPod "infra" "default" None "deploy.sh" "registry/img"
      "infra-container-secret" None;
    EvUpdateStatus "default" "infra"
      {[ "state" := "Success"; "message" := "Terraform applied successfully" ]}
      None ].
Proof. vm_compute. reflexivity. Qed.

Example handleSyncRequest_destroy_runs_destroy_script :
  List.filter isRun
    (handleSyncRequest (infra true "deploy.sh" "destroy.sh" None) (sim0, [])).2.2 =
  [ EvCreateRunPod "infra" "default" None "destroy.sh" "registry/img"
      "infra-container-secret" None ].
Proof. vm_compute. reflexivity. Qed.

(** C2, as the claim has it, fails: when the tenth attempt succeeds the
    message is not "applied successfully". *)
Lemma runTerraform_success_message_differs :
  (runInfra (failing 9)).1 ≠
    {[ "state" := "Success"; "message" := "applied successfully" ]}.
Proof.
  intros H. apply (f_equal (λ st : gmap string string, st !! "message")) in H.
  vm_compute in H. discriminate H.
Qed.

(** C7, as the claim has it, fails: the message does not begin with a small
    letter. *)
Lemma errorResponse_message_is_capitalised :
  errorResponse "setting up backend" (Errorf "error getting provider: unknown")
    !! "message"
  ≠ Some "error setting up backend: error getting provider: unknown".
Proof. vm_compute. discriminate. Qed.

Lemma errorResponse_message_witness :
  (handleSyncRequest (infra false "" "" None) (sim0, [])).1.2 !! "state" = Some "error" ∧
  ∃ action cause,
    (handleSyncRequest (infra false "" "" None) (sim0, [])).1.2 =
      errorResponse action cause.
Proof.
  assert (Hst : (handleSyncRequest (infra false "" "" None) (sim0, [])).1.2
                !! "state" = Some "error") by (vm_compute; reflexivity).
  split; [exact Hst |].
  destruct (@errorResponse_message Sim _) as [_ H].
  destruct (H (infra false "" "" None) sim0 Hst) as (action & cause & _ & Heq).
  exists action, cause. exact Heq.
Defined.

Lemma handleSyncRequest_unknown_provider_witness :
  let req := infra false "deploy.sh" "destroy.sh" (Some unknownBackend) in
  let res := handleSyncRequest req (sim0, []) in
  res.1.2 !! "state" = Some "error" ∧
  Forall (λ ev, isBuild ev = false ∧ isRun ev = false) res.2.2.
Proof.
  intros req res.
  destruct (handleSyncRequest_unknown_provider req unknownBackend "doesnotexist"
              (Errorf "unknown provider: doesnotexist") sim0 sim0)
    as (Hstate & Hnone & _).
  - reflexivity.
  - vm_compute. reflexivity.
  - discriminate.
  - vm_compute. reflexivity.
  - exact (conj Hstate Hnone).
Defined.


(** The status [handleSyncRequest] returns is in the store afterwards, under
    the namespace and name of the request. *)
Example handleSyncRequest_status_is_stored :
  let res := handleSyncRequest deployInfra (sim0, []) in
  simStatus sim0 !! ("default", "infra") = None ∧
  simStatus res.2.1 !! ("default", "infra") = Some res.1.2 ∧
  res.1.2 = {[ "state" := "Success";
               "message" := "Terraform applied successfully" ]}.
Proof. vm_compute. done. Qed.


(** With a provider that only reads the map, and with a provider the
    platform does not know, the map is as it was. *)
Example handleSyncRequest_backend_left_alone :
  backendMap (syncShared readsOnly awsInfra sim0).2.1 = Some awsBackend ∧
  backendMap (syncShared fillBucket
                (infra false "deploy.sh" "destroy.sh" (Some unknownBackend))
                sim0).2.1 = Some unknownBackend.
Proof. vm_compute. done. Qed.

End SyncOnSim.

Section PaginatorFacts.
Import rds.
Context {Filter OptionGroupOption Metadata OptFn W : Type}.
Context `{!@DescribeOptionGroupOptionsAPIClient Filter OptionGroupOption Metadata OptFn W}.
Variable ua : OptFn.

Local Abbreviation Input := (@DescribeOptionGroupOptionsInput Filter).
Local Abbreviation Paginator := (@DescribeOptionGroupOptionsPaginator Filter).

Lemma empty_token (t : string) : (String.length t =? 0) = true ↔ t = "".
Proof. destruct t; cbn; split; congruence. Qed.

(** X18.  A new paginator always has a page to fetch, whatever the parameters, and
    its first request carries the caller's marker and fields; it asks for
    [Limit] records when that is positive and names no maximum otherwise. *)
Theorem NewPaginator_fetches_first_page (given : option Input)
    (fns : list (DescribeOptionGroupOptionsPaginatorOptions →
                 DescribeOptionGroupOptionsPaginatorOptions))
    (optFns : list OptFn) (w : W) :
  let p := NewDescribeOptionGroupOptionsPaginator given fns in
  let res := NextPage ua p optFns (w, []) in
  HasMorePages p = true ∧
  (fns = [] → Limit (options p) = default 0%Z (given ≫= MaxRecords)) ∧
  ∃ input r,
    res.2.2 = [EvDescribe input (ua :: optFns) r] ∧
    Marker input = given ≫= Marker ∧
    EngineName input = given ≫= EngineName ∧
    MajorEngineVersion input = given ≫= MajorEngineVersion ∧
    Filters input = default [] (Filters <$> given) ∧
    MaxRecords input = (if (0 <? Limit (options p))%Z
                        then Some (Limit (options p)) else None).
Proof.
  intros p res. subst res p. split; [reflexivity |]. split.
  - intros ->. destruct given as [[? ? ? ? [n|]]|]; reflexivity.
  - unfold NextPage. cbn [HasMorePages firstPage orb negb
                          NewDescribeOptionGroupOptionsPaginator].
    unfold bind, call, ret. cbn [fst snd].
    match goal with |- context [DescribeOptionGroupOptions ?i ?f w] =>
      destruct (DescribeOptionGroupOptions i f w) as [[out | err] w1] end.
    all: eexists _, _; split; [reflexivity |].
    all: destruct given as [[]|]; repeat split.
Qed.

(** X19.  A call of [NextPage] that returns an error leaves the paginator as it
    was, and on a paginator with no more pages the error is "no more pages
    available" and the service is not called. *)
Theorem NextPage_error_keeps_paginator (p : Paginator)
    (optFns : list OptFn) (w : W) :
  let res := NextPage ua p optFns (w, []) in
  (HasMorePages p = false →
   res = ((inr (Errorf "no more pages available"), p), (w, []))) ∧
  (∀ e, res.1.1 = inr e → res.1.2 = p) ∧
  (HasMorePages p = true → length res.2.2 = 1).
Proof.
  intros res. subst res. unfold NextPage.
  destruct (HasMorePages p); cbn [negb].
  - unfold bind, call, ret. cbn [fst snd].
    match goal with |- context [DescribeOptionGroupOptions ?i ?f w] =>
      destruct (DescribeOptionGroupOptions i f w) as [[out | err] w1] end.
    all: repeat split; try done.
  - repeat split; done.
Qed.

(** X20.  After a page was fetched the paginator keeps its options and parameters
    and is past its first page; it has more pages exactly when the service
    returned a marker that is not empty and that is not, under
    [StopOnDuplicateToken], the marker the request was sent with. *)
Theorem NextPage_more_pages (p p' : Paginator)
    (optFns : list OptFn) (w : W) (s' : W * list Event)
    (out : DescribeOptionGroupOptionsOutput) :
  NextPage ua p optFns (w, []) = ((inl out, p'), s') →
  options p' = options p ∧ params p' = params p ∧ firstPage p' = false ∧
  (HasMorePages p' = true ↔
   ∃ t, OutMarker out = Some t ∧ t ≠ "" ∧
        ¬ (StopOnDuplicateToken (options p) = true ∧ nextToken p = Some t)).
Proof.
  unfold NextPage. destruct (HasMorePages p); cbn [negb]; [| discriminate].
  unfold bind, call, ret. cbn [fst snd].
  match goal with |- context [DescribeOptionGroupOptions ?i ?f w] =>
    destruct (DescribeOptionGroupOptions i f w) as [[out1 | err] w1] end;
    [| discriminate].
  intros [= -> <- <-]. cbn [options params firstPage]. repeat split.
  - unfold HasMorePages. cbn [firstPage nextToken orb].
    destruct (nextToken p) as [a|], (OutMarker out) as [b|]; try discriminate.
    + destruct (StopOnDuplicateToken (options p)) eqn:Hstop; cbn [andb].
      * case_bool_decide as Hab; [discriminate |].
        intros Hlen. exists b. split; [done |]. split.
        -- intros ->. discriminate.
        -- intros [_ [= ->]]. done.
      * intros Hlen. exists b. split; [done |]. split.
        -- intros ->. discriminate.
        -- intros [? _]. discriminate.
    + intros Hlen. exists b. split; [done |]. split.
      * intros ->. discriminate.
      * intros [_ ?]. discriminate.
  - intros (t & Ht & Hne & Hdup). unfold HasMorePages. cbn [firstPage nextToken orb].
    rewrite Ht.
    assert (Hlen : negb (String.length t =? 0) = true).
    { destruct (String.length t =? 0) eqn:E; [| done].
      apply empty_token in E. done. }
    destruct (nextToken p) as [a|]; [| exact Hlen].
    destruct (StopOnDuplicateToken (options p)); cbn [andb]; [| exact Hlen].
    case_bool_decide as Hab; [| exact Hlen].
    subst a. destruct Hdup. done.
Qed.

Lemma NextPage_done (p : Paginator) (optFns : list OptFn) (s : W * list Event) :
  HasMorePages p = false →
  NextPage ua p optFns s = ((inr (Errorf "no more pages available"), p), s).
Proof. intros Hp. unfold NextPage. rewrite Hp. reflexivity. Qed.

Lemma NextPage_same_marker (t : string) (p : Paginator)
    (optFns : list OptFn) (s : W * list Event) :
  (∀ input fs w0, ∃ out w1,
     DescribeOptionGroupOptions input fs w0 = (inl out, w1) ∧
     OutMarker out = Some t) →
  HasMorePages p = true →
  ∃ out ev w1,
    NextPage ua p optFns s =
      ((inl out,
        {| options := options p; params := params p;
           nextToken := match nextToken p with
                        | Some a => if StopOnDuplicateToken (options p) &&
                                       bool_decide (a = t)
                                    then None else Some t
                        | None => Some t
                        end;
           firstPage := false |}),
       (w1, s.2 ++ [ev])).
Proof.
  intros Hsame Hp. unfold NextPage. rewrite Hp. cbn [negb].
  unfold bind, call, ret.
  match goal with |- context [DescribeOptionGroupOptions ?i ?f s.1] =>
    destruct (Hsame i f s.1) as (out & w1 & Hcall & Hm) end.
  rewrite Hcall, Hm. eexists _, _, _. reflexivity.
Qed.

(** X21.  Under [StopOnDuplicateToken], against a service that answers every
    request with the same marker, a new paginator is done after two calls of
    [NextPage] at the latest. *)
Theorem NextPage_duplicate_token_stops (given : option Input)
    (fns : list (DescribeOptionGroupOptionsPaginatorOptions →
                 DescribeOptionGroupOptionsPaginatorOptions))
    (optFns1 optFns2 : list OptFn) (w : W) (t : string) :
  (∀ input fs w0, ∃ out w1,
     DescribeOptionGroupOptions input fs w0 = (inl out, w1) ∧
     OutMarker out = Some t) →
  let p := NewDescribeOptionGroupOptionsPaginator given fns in
  StopOnDuplicateToken (options p) = true →
  let r1 := NextPage ua p optFns1 (w, []) in
  let r2 := NextPage ua r1.1.2 optFns2 r1.2 in
  HasMorePages r2.1.2 = false ∧ length r2.2.2 ≤ 2.
Proof.
  intros Hsame p Hstop r1 r2. subst r2 r1.
  destruct (NextPage_same_marker t p optFns1 (w, []) Hsame eq_refl)
    as (out1 & ev1 & w1 & ->).
  cbn [fst snd app]. rewrite Hstop. cbn [andb].
  match goal with |- context [NextPage ua ?q optFns2 ?s] =>
    set (p1 := q); set (s1 := s) end.
  destruct (HasMorePages p1) eqn:Hp1.
  - destruct (NextPage_same_marker t p1 optFns2 s1 Hsame Hp1)
      as (out2 & ev2 & w2 & ->).
    unfold HasMorePages in Hp1. subst p1 s1.
    cbn [fst snd app length firstPage nextToken options params orb] in *.
    split; [| lia].
    unfold HasMorePages. cbn [firstPage nextToken options orb].
    rewrite Hstop. cbn [andb].
    destruct (nextToken p) as [a|].
    + case_bool_decide; [discriminate |].
      rewrite bool_decide_eq_true_2 by reflexivity. reflexivity.
    + rewrite bool_decide_eq_true_2 by reflexivity. reflexivity.
  - rewrite (NextPage_done p1 optFns2 s1 Hp1). cbn [fst snd]. subst s1.
    cbn [snd length]. split; [exact Hp1 | lia].
Qed.

End PaginatorFacts.

Section PaginatorOnService.
Import rds.

Local Abbreviation nextPage :=
  (@NextPage unit unit unit unit nat (sameMarker "next") tt).

Lemma NextPage_duplicate_token_stops_witness :
  let p := @NewDescribeOptionGroupOptionsPaginator unit None
             [λ o, {| Limit := Limit o; StopOnDuplicateToken := true |}] in
  let r1 := nextPage p [] (0, []) in
  let r2 := nextPage r1.1.2 [] r1.2 in
  HasMorePages r2.1.2 = false ∧ length r2.2.2 ≤ 2.
Proof.
  intros p r1 r2.
  apply (@NextPage_duplicate_token_stops unit unit unit unit nat
           (sameMarker "next") tt None _ [] [] 0 "next").
  - intros input fs w0. eexists _, _. split; reflexivity.
  - reflexivity.
Defined.

Lemma NextPage_more_pages_witness :
  let p := @NewDescribeOptionGroupOptionsPaginator unit None [] in
  let res := nextPage p [] (0, []) in
  firstPage res.1.2 = false ∧ HasMorePages res.1.2 = true.
Proof.
  intros p res.
  destruct (@NextPage_more_pages unit unit unit unit nat (sameMarker "next") tt
              p res.1.2 [] 0 res.2
              {| OutMarker := Some "next"; OptionGroupOptions := [];
                 ResultMetadata := tt |} eq_refl) as (_ & _ & Hfirst & Hmore).
  split; [exact Hfirst |]. apply Hmore. exists "next".
  split; [reflexivity |]. split; [discriminate |]. intros [? _]. discriminate.
Defined.

End PaginatorOnService.
